(** * CondoStatus: the input validation layer ([src/lib/validation.ts])

    A shallow embedding of the validation module: the string sanitizer
    [sanitizeString], the file upload guard [validateFileUpload], the
    schemas and [validateInput].  The schemas are values of a small
    syntax of the validation library's constructors, and [safeParse] is an
    interpreter of that syntax which follows the library's synchronous
    parsing (version 3): the issue list is threaded through the calls, an
    object parses all its fields before merging their results.  The
    definitions come first, the properties after them.

    JavaScript strings are sequences of UTF-16 code units; [length], the
    global single-character replacements of [sanitizeString] and the
    regular expressions of [validateFileUpload] (none of which carries the
    [u] flag) all work code unit by code unit, so a string is modelled as
    the list of its code units. *)

From Stdlib Require Import ZArith List Ascii String Lia Bool.
From Stdlib Require Import Floats.PrimFloat Floats.FloatOps Floats.SpecFloat.
From Stdlib Require Import Numbers.Cyclic.Int63.Uint63.
From stdpp Require Import gmap list pretty.

Set Warnings "-register-all".

(** ** Strings *)

Abbreviation jsstring := (list N).

(** [js "abc"] is the JavaScript string literal ['abc']. *)
Definition js (s : string) : jsstring :=
  List.map N_of_ascii (list_ascii_of_string s).

Definition char (a : ascii) : N := N_of_ascii a.

(** [a.join(sep)] on an array of strings. *)
Fixpoint join (sep : jsstring) (l : list jsstring) : jsstring :=
  match l with
  | [] => []
  | [x] => x
  | x :: rest => x ++ sep ++ join sep rest
  end.

(** [s.includes(c)] for a single code unit. *)
Definition contains_char (c : N) (s : jsstring) : bool :=
  existsb (N.eqb c) s.

(** [!s] on a string: only the empty string is falsy. *)
Definition falsy_string (s : jsstring) : bool :=
  match s with [] => true | _ => false end.

(** ** String sanitizer *)

Module Sanitizer.

(** [input.replace(/c/g, rep)] for a pattern that is one literal character
    and a replacement text without [$]: every occurrence of [c], left to
    right, is replaced by [rep]. *)
Definition replace_g (c : N) (rep : jsstring) (input : jsstring) : jsstring :=
  flat_map (fun x => if N.eqb x c then rep else [x]) input.

Definition LT := char "<".
Definition GT := char ">".
Definition QUOT : N := 34.  (* the double quote *)
Definition APOS := char "'".
Definition SLASH := char "/".

Definition sanitizeString (input : jsstring) : jsstring :=
  replace_g SLASH (js "&#x2F;")
    (replace_g APOS (js "&#x27;")
      (replace_g QUOT (js "&quot;")
        (replace_g GT (js "&gt;")
          (replace_g LT (js "&lt;") input)))).

(** The five characters the sanitizer targets. *)
Definition targets : list N := [LT; GT; QUOT; APOS; SLASH].

End Sanitizer.

(** ** File upload guard *)

Module Upload.

(** The metadata of a DOM [File] that the guard reads.  [size] is the
    byte count, an unsigned integer. *)
Record File := mkFile {
  type : jsstring;
  size : Z;
  name : jsstring
}.

Record FileValidationResult := mkResult {
  valid : bool;
  error : option jsstring
}.

Definition MAX_SIZE : Z := 50 * 1024 * 1024.

(** [/\.\./.test(s)] *)
Fixpoint has_dotdot (s : jsstring) : bool :=
  match s with
  | a :: (b :: _) as rest =>
      (N.eqb a (char ".") && N.eqb b (char ".")) || has_dotdot rest
  | _ => false
  end.

(** The character class of the second pattern: [<], [>], [:], the double
    quote, [|], [?] and [*]. *)
Definition reserved : jsstring := js "<>:" ++ [34%N] ++ js "|?*".

(** The test of the second pattern, a one-character class. *)
Definition has_reserved (s : jsstring) : bool :=
  existsb (fun c => contains_char c reserved) s.

(** [/^\./.test(s)] *)
Definition starts_with_dot (s : jsstring) : bool :=
  match s with
  | c :: _ => N.eqb c (char ".")
  | [] => false
  end.

(** [/\x00/.test(s)] *)
Definition has_nul (s : jsstring) : bool := contains_char 0%N s.

Definition suspiciousPatterns : list (jsstring -> bool) :=
  [has_dotdot; has_reserved; starts_with_dot; has_nul].

Definition ONLY_PDF := js "Only PDF files are allowed".
Definition TOO_BIG := js "File size must be less than 50MB".
Definition BAD_NAME := js "Invalid file name".
Definition PDF := js "application/pdf".

(** [s1 !== s2] on strings *)
Definition str_neq (s1 s2 : jsstring) : bool :=
  negb (bool_decide (s1 = s2)).

Definition validateFileUpload (file : File) : FileValidationResult :=
  if str_neq (type file) PDF then
    mkResult false (Some ONLY_PDF)
  else if (size file >? MAX_SIZE)%Z then
    mkResult false (Some TOO_BIG)
  else if falsy_string (name file) || (Z.of_nat (length (name file)) >? 255)%Z then
    mkResult false (Some BAD_NAME)
  else if existsb (fun pattern => pattern (name file)) suspiciousPatterns then
    mkResult false (Some BAD_NAME)
  else
    mkResult true None.

(** The ordered check list of the guard as the specification words it:
    each entry is a test telling whether a descriptor violates the check,
    with the message reported for it. *)
Definition spec_checks : list ((File -> bool) * jsstring) :=
  [ (fun f => negb (bool_decide (type f = PDF)), ONLY_PDF);
    (fun f => bool_decide (size f > MAX_SIZE)%Z, TOO_BIG);
    (fun f => bool_decide (name f = []) || bool_decide (255 < length (name f))%nat, BAD_NAME);
    (fun f => has_dotdot (name f) || has_reserved (name f)
              || starts_with_dot (name f) || has_nul (name f), BAD_NAME) ].

End Upload.

(** ** JavaScript values *)

(** The untrusted data handed to [validateInput]: what a parsed JSON
    body or a query-parameter object can hold, plus [undefined].  Numbers
    are IEEE 754 binary64 values, objects are finite maps from property
    names to values. *)
Inductive value :=
| VUndefined
| VNull
| VBool (b : bool)
| VNumber (x : float)
| VString (s : jsstring)
| VArray (items : list value)
| VObject (props : gmap jsstring value).

(** What the embedding takes from outside the repository: the two
    conversions of the JavaScript runtime that [z.coerce.number()] and
    template literals rely on, and the three format tests of the
    validation library (regular expressions that are not part of the
    repository's sources). *)
Class Host := {
  (** [Number(s)] on a string *)
  StringToNumber : jsstring -> float;
  (** [String(x)] on a number *)
  NumberToString : float -> jsstring;
  (** the library's test behind [.uuid()] *)
  uuidRegex_test : jsstring -> bool;
  (** the library's test behind [.email()] *)
  emailRegex_test : jsstring -> bool;
  (** the library's test behind [.datetime()] *)
  datetimeRegex_test : jsstring -> bool
}.

Module JS.

(** [s.length] as a number *)
Definition length_number (s : jsstring) : float :=
  PrimFloat.of_uint63 (Uint63.of_Z (Z.of_nat (length s))).

(** [Number.isInteger(x)] *)
Definition isInteger (x : float) : bool :=
  match Prim2SF x with
  | S754_zero _ => true
  | S754_finite _ m e => (0 <=? e)%Z || (Z.pos m mod 2 ^ (- e) =? 0)%Z
  | S754_infinity _ | S754_nan => false
  end.

(** [data[key]] on a plain data object: an absent property reads as
    [undefined]. *)
Definition get (key : jsstring) (props : gmap jsstring value) : value :=
  default VUndefined (props !! key).

(** [key in data] *)
Definition has (key : jsstring) (props : gmap jsstring value) : bool :=
  bool_decide (is_Some (props !! key)).

Section Conversions.
Context `{Host}.

(** [String(v)], [None] standing for the [TypeError] the conversion
    raises.  An object is converted by its [toString] method: a data
    object inherits the one that gives [[object Object]], unless it has a
    property of its own named [toString], whose value, being data, cannot
    be called; the conversion then finds no method to call (the inherited
    [valueOf] returns the object itself) and raises.  An array joins the
    conversions of its elements with a comma, [null] and [undefined]
    elements giving the empty string, and raises when an element does. *)
Fixpoint ToString (v : value) : option jsstring :=
  match v with
  | VUndefined => Some (js "undefined")
  | VNull => Some (js "null")
  | VBool true => Some (js "true")
  | VBool false => Some (js "false")
  | VNumber x => Some (NumberToString x)
  | VString s => Some s
  | VArray items =>
      option_map (join (js ","))
        ((fix elements (l : list value) : option (list jsstring) :=
            match l with
            | [] => Some []
            | e :: rest =>
                match (match e with
                       | VUndefined | VNull => Some []
                       | _ => ToString e
                       end) with
                | Some s =>
                    match elements rest with
                    | Some ss => Some (s :: ss)
                    | None => None
                    end
                | None => None
                end
            end) items)
  | VObject props =>
      if has (js "toString") props then None else Some (js "[object Object]")
  end.

(** [Number(v)], [None] standing for the [TypeError] it raises.  Arrays
    and objects are first converted to a string, which is where the
    conversion can raise. *)
Definition ToNumber (v : value) : option float :=
  match v with
  | VUndefined => Some nan
  | VNull => Some 0%float
  | VBool true => Some 1%float
  | VBool false => Some 0%float
  | VNumber x => Some x
  | VString s => Some (StringToNumber s)
  | VArray _ | VObject _ => option_map StringToNumber (ToString v)
  end.

End Conversions.

End JS.

(** ** The validation library: schemas *)

Module Zod.
Import JS.

(** The checks [z.string()] accumulates, in the order of the method
    chain.  [message] is the optional custom message of the call. *)
Inductive StringCheck :=
| SMin (value : float) (message : option jsstring)
| SMax (value : float) (message : option jsstring)
| SEmail (message : option jsstring)
| SUuid (message : option jsstring)
| SDatetime (message : option jsstring).

(** The checks [z.number()] accumulates: [.int()], [.min(v)] and
    [.positive()] (a minimum, inclusive or not), [.max(v)]. *)
Inductive NumberCheck :=
| NInt (message : option jsstring)
| NMin (value : float) (inclusive : bool) (message : option jsstring)
| NMax (value : float) (inclusive : bool) (message : option jsstring).

(** The schema constructors the registry uses.  [errorMap] is the
    constant error map [() => ({ message })] given at creation;
    [z.literal] only occurs with one, and with a string value.  The shape
    of [z.object] lists the fields in declaration order. *)
Inductive schema :=
| ZString (checks : list StringCheck)
| ZNumber (coerce : bool) (checks : list NumberCheck)
| ZBoolean
| ZLiteral (value : jsstring) (errorMap : jsstring)
| ZEnum (values : list jsstring) (errorMap : option jsstring)
| ZOptional (innerType : schema)
| ZDefault (innerType : schema) (defaultValue : value)
| ZObject (shape : list (jsstring * schema)).

(** [a.merge(b)]: the shape [{...a.shape, ...b.shape}].  A key of both
    keeps its place in [a] and takes the schema of [b]. *)
Definition merge_shape (a b : list (jsstring * schema)) : list (jsstring * schema) :=
  List.map (fun '(k, s) =>
              match List.find (fun '(k', _) => bool_decide (k' = k)) b with
              | Some (_, s') => (k, s')
              | None => (k, s)
              end) a
  ++ List.filter (fun '(k, _) => negb (existsb (fun '(k', _) => bool_decide (k' = k)) a)) b.

Definition merge (a b : schema) : schema :=
  match a, b with
  | ZObject sa, ZObject sb => ZObject (merge_shape sa sb)
  | _, _ => a
  end.

(** ** The validation library: parsing *)

(** Of an issue, [validateInput] reads the path and the message.  The
    paths here are made of field names only: the registry has no array
    schema. *)

Record ZodIssue := mkIssue {
  path : list jsstring;
  message : jsstring
}.

(** The result of one [_parse] call: aborted, or a value that is either
    valid or dirty (some check failed on it). *)
Inductive ParseReturn :=
| INVALID
| DIRTY (v : value)
| VALID (v : value).

(** Parsing threads the issue list of the common parse context, to which
    [addIssueToContext] appends.  A parse either returns ([Some]) or is
    left by an exception ([None]), which no parser catches; the issues
    recorded until then stay in the context. *)
Definition Parse (A : Type) : Type := list ZodIssue -> option A * list ZodIssue.

Definition ret {A} (a : A) : Parse A := fun issues => (Some a, issues).

Definition bind {A B} (m : Parse A) (k : A -> Parse B) : Parse B :=
  fun issues =>
    match m issues with
    | (Some a, issues') => k a issues'
    | (None, issues') => (None, issues')
    end.

Definition throw {A} : Parse A := fun issues => (None, issues).

Notation "'let*' x ':=' m 'in' k" := (bind m (fun x => k))
  (at level 10, x name, m at level 100, k at level 200).
Notation "m ';;' k" := (bind m (fun _ => k))
  (at level 100, k at level 200, right associativity).

Definition addIssueToContext (p : list jsstring) (msg : jsstring) : Parse unit :=
  fun issues => (Some tt, issues ++ [mkIssue p msg]).

Inductive ZodParsedType :=
| Tundefined | Tnull | Tboolean | Tnan | Tnumber | Tstring | Tarray | Tobject.

Definition getParsedType (data : value) : ZodParsedType :=
  match data with
  | VUndefined => Tundefined
  | VNull => Tnull
  | VBool _ => Tboolean
  | VNumber x => if PrimFloat.is_nan x then Tnan else Tnumber
  | VString _ => Tstring
  | VArray _ => Tarray
  | VObject _ => Tobject
  end.

Definition type_name (t : ZodParsedType) : jsstring :=
  match t with
  | Tundefined => js "undefined"
  | Tnull => js "null"
  | Tboolean => js "boolean"
  | Tnan => js "nan"
  | Tnumber => js "number"
  | Tstring => js "string"
  | Tarray => js "array"
  | Tobject => js "object"
  end.

(** [util.joinValues]: the string values quoted and joined by [ | ]. *)
Definition joinValues (values : list jsstring) : jsstring :=
  join (js " | ") (List.map (fun v => js "'" ++ v ++ js "'") values).

(** The message of an issue: the message given with the check if any,
    else the one of the schema's error map if any, else the default. *)
Definition resolve (check_message schema_message : option jsstring)
    (default_message : jsstring) : jsstring :=
  match check_message, schema_message with
  | Some m, _ => m
  | None, Some m => m
  | None, None => default_message
  end.

(** The default error map on an [invalid_type] issue. *)
Definition invalid_type_message (expected : jsstring) (received : ZodParsedType) : jsstring :=
  match received with
  | Tundefined => js "Required"
  | _ => js "Expected " ++ expected ++ js ", received " ++ type_name received
  end.

Section Parsing.
Context `{Host}.

Definition string_check_fails (c : StringCheck) (s : jsstring) : bool :=
  match c with
  | SMin v _ => PrimFloat.ltb (length_number s) v
  | SMax v _ => PrimFloat.ltb v (length_number s)
  | SEmail _ => negb (emailRegex_test s)
  | SUuid _ => negb (uuidRegex_test s)
  | SDatetime _ => negb (datetimeRegex_test s)
  end.

Definition string_check_message (c : StringCheck) : jsstring :=
  match c with
  | SMin v m =>
      resolve m None (js "String must contain at least " ++ NumberToString v ++ js " character(s)")
  | SMax v m =>
      resolve m None (js "String must contain at most " ++ NumberToString v ++ js " character(s)")
  | SEmail m => resolve m None (js "Invalid email")
  | SUuid m => resolve m None (js "Invalid uuid")
  | SDatetime m => resolve m None (js "Invalid datetime")
  end.

Definition number_check_fails (c : NumberCheck) (x : float) : bool :=
  match c with
  | NInt _ => negb (isInteger x)
  | NMin v inclusive _ => if inclusive then PrimFloat.ltb x v else PrimFloat.leb x v
  | NMax v inclusive _ => if inclusive then PrimFloat.ltb v x else PrimFloat.leb v x
  end.

Definition number_check_message (c : NumberCheck) : jsstring :=
  match c with
  | NInt m => resolve m None (js "Expected integer, received float")
  | NMin v inclusive m =>
      resolve m None
        (js "Number must be "
         ++ (if inclusive then js "greater than or equal to " else js "greater than ")
         ++ NumberToString v)
  | NMax v inclusive m =>
      resolve m None
        (js "Number must be "
         ++ (if inclusive then js "less than or equal to" else js "less than")
         ++ js " " ++ NumberToString v)
  end.

(** The loop over the checks of a string or number schema: every check
    runs, each failing one adds its issue and marks the status dirty. *)
Fixpoint run_checks {C A} (fails : C -> A -> bool) (msg : C -> jsstring)
    (checks : list C) (p : list jsstring) (data : A) (dirty : bool) : Parse bool :=
  match checks with
  | [] => ret dirty
  | check :: rest =>
      if fails check data then
        addIssueToContext p (msg check) ;;
        run_checks fails msg rest p data true
      else run_checks fails msg rest p data dirty
  end.

(** One step of [ParseStatus.mergeObjectSync]: a parsed field is copied
    to the final object unless its value is [undefined] and the key is
    absent from the input. *)
Definition set_field (key : jsstring) (v : value) (alwaysSet : bool)
    (finalObject : gmap jsstring value) : gmap jsstring value :=
  if negb (bool_decide (key = js "__proto__"))
     && (match v with VUndefined => false | _ => true end || alwaysSet)
  then <[key := v]> finalObject
  else finalObject.

Fixpoint mergeObjectSync (pairs : list (jsstring * ParseReturn * bool))
    (dirty : bool) (finalObject : gmap jsstring value) : ParseReturn :=
  match pairs with
  | [] => if dirty then DIRTY (VObject finalObject) else VALID (VObject finalObject)
  | (key, r, alwaysSet) :: rest =>
      match r with
      | INVALID => INVALID
      | DIRTY v => mergeObjectSync rest true (set_field key v alwaysSet finalObject)
      | VALID v => mergeObjectSync rest dirty (set_field key v alwaysSet finalObject)
      end
  end.

(** The first step of a number schema: [input.data = Number(input.data)]
    when the schema coerces. *)
Definition coerce_input (coerce : bool) (data : value) : Parse value :=
  if coerce then
    match ToNumber data with
    | Some x => ret (VNumber x)
    | None => throw
    end
  else ret data.

(** [schema._parse] at path [p]. *)
Fixpoint _parse (s : schema) (p : list jsstring) (data : value) {struct s}
  : Parse ParseReturn :=
  match s with
  | ZString checks =>
      match data with
      | VString str =>
          let* dirty := run_checks string_check_fails string_check_message
                          checks p str false in
          ret (if dirty then DIRTY data else VALID data)
      | _ =>
          addIssueToContext p (invalid_type_message (js "string") (getParsedType data)) ;;
          ret INVALID
      end
  | ZNumber coerce checks =>
      let* data := coerce_input coerce data in
      match getParsedType data, data with
      | Tnumber, VNumber x =>
          let* dirty := run_checks number_check_fails number_check_message
                          checks p x false in
          ret (if dirty then DIRTY data else VALID data)
      | received, _ =>
          addIssueToContext p (invalid_type_message (js "number") received) ;;
          ret INVALID
      end
  | ZBoolean =>
      match data with
      | VBool _ => ret (VALID data)
      | _ =>
          addIssueToContext p (invalid_type_message (js "boolean") (getParsedType data)) ;;
          ret INVALID
      end
  | ZLiteral value errorMap =>
      match data with
      | VString str =>
          if bool_decide (str = value) then ret (VALID data)
          else addIssueToContext p errorMap ;; ret INVALID
      | _ => addIssueToContext p errorMap ;; ret INVALID
      end
  | ZEnum values errorMap =>
      match data with
      | VString str =>
          if existsb (fun v => bool_decide (v = str)) values then ret (VALID data)
          else
            addIssueToContext p
              (resolve None errorMap
                 (js "Invalid enum value. Expected " ++ joinValues values
                  ++ js ", received '" ++ str ++ js "'")) ;;
            ret INVALID
      | _ =>
          addIssueToContext p
            (resolve None errorMap
               (invalid_type_message (joinValues values) (getParsedType data))) ;;
          ret INVALID
      end
  | ZOptional innerType =>
      match data with
      | VUndefined => ret (VALID VUndefined)
      | _ => _parse innerType p data
      end
  | ZDefault innerType defaultValue =>
      match data with
      | VUndefined => _parse innerType p defaultValue
      | _ => _parse innerType p data
      end
  | ZObject shape =>
      match data with
      | VObject props =>
          let* pairs :=
            (fix parse_fields (fields : list (jsstring * schema))
               : Parse (list (jsstring * ParseReturn * bool)) :=
               match fields with
               | [] => ret []
               | (key, keyValidator) :: rest =>
                   let* r := _parse keyValidator (p ++ [key]) (get key props) in
                   let* rs := parse_fields rest in
                   ret ((key, r, has key props) :: rs)
               end) shape in
          ret (mergeObjectSync pairs false ∅)
      | _ =>
          addIssueToContext p (invalid_type_message (js "object") (getParsedType data)) ;;
          ret INVALID
      end
  end.

(** The outcome of [schema.safeParse(data)]: the parsed data, a
    [ZodError] carrying the issues, or an exception: the one that left the
    parse, which [safeParse] does not catch, or the library's own when
    parsing failed without recording any issue. *)
Inductive SafeParseReturn :=
| SafeSuccess (data : value)
| SafeError (errors : list ZodIssue)
| SafeThrows.

Definition safeParse (s : schema) (data : value) : SafeParseReturn :=
  match _parse s [] data [] with
  | (None, _) => SafeThrows
  | (Some (VALID v), _) => SafeSuccess v
  | (Some _, []) => SafeThrows
  | (Some _, issues) => SafeError issues
  end.

End Parsing.

End Zod.

(** ** The schema registry and [validateInput] *)

Module Validation.
Import Zod.

Definition uuidSchema : schema := ZString [SUuid (Some (js "Invalid UUID format"))].

Definition emailSchema : schema := ZString [SEmail (Some (js "Invalid email format"))].

Definition fileUploadSchema : schema := ZObject [
  (js "type", ZLiteral (js "application/pdf") (js "Only PDF files are allowed"));
  (js "size", ZNumber false
     [NMax (50 * 1024 * 1024)%float true (Some (js "File size must be less than 50MB"))]);
  (js "name", ZString [SMin 1 (Some (js "File name is required"))])
].

Definition reportIdSchema : schema := ZObject [
  (js "id", uuidSchema)
].

Definition reportUpdateSchema : schema := ZObject [
  (js "id", uuidSchema);
  (js "status", ZOptional (ZEnum [js "draft"; js "reviewed"; js "sent"] None));
  (js "notes", ZOptional (ZString [SMax 10000 (Some (js "Notes too long"))]))
].

Definition noteSchema : schema := ZObject [
  (js "reportId", uuidSchema);
  (js "itemId", ZString [SMin 1 (Some (js "Item ID is required"));
                         SMax 100 (Some (js "Item ID too long"))]);
  (js "note", ZString [SMax 5000 (Some (js "Note too long"))])
].

Definition verificationSchema : schema := ZObject [
  (js "reportId", uuidSchema);
  (js "itemId", ZString [SMin 1 (Some (js "Item ID is required"));
                         SMax 100 (Some (js "Item ID too long"))]);
  (js "verified", ZBoolean)
].

Definition checkoutSchema : schema := ZObject [
  (js "plan", ZEnum [js "monthly"; js "yearly"]
     (Some (js "Invalid plan. Must be monthly or yearly.")))
].

Definition signupSchema : schema := ZObject [
  (js "email", emailSchema);
  (js "password", ZString [SMin 8 (Some (js "Password must be at least 8 characters"));
                           SMax 100 (Some (js "Password too long"))]);
  (js "fullName", ZOptional (ZString [SMin 1 (Some (js "Name is required"));
                                      SMax 100 (Some (js "Name too long"))]));
  (js "firmName", ZOptional (ZString [SMax 200 (Some (js "Firm name too long"))]))
].

Definition loginSchema : schema := ZObject [
  (js "email", emailSchema);
  (js "password", ZString [SMin 1 (Some (js "Password is required"))])
].

Definition profileUpdateSchema : schema := ZObject [
  (js "fullName", ZOptional (ZString [SMax 100 (Some (js "Name too long"))]));
  (js "firmName", ZOptional (ZString [SMax 200 (Some (js "Firm name too long"))]));
  (js "phone", ZOptional (ZString [SMax 20 (Some (js "Phone number too long"))]))
].

Definition paginationSchema : schema := ZObject [
  (js "page", ZDefault (ZNumber true [NInt None; NMin 0 false None]) (VNumber 1));
  (js "limit", ZDefault (ZNumber true [NInt None; NMin 1 true None; NMax 100 true None])
                 (VNumber 20))
].

Definition reportFilterSchema : schema :=
  merge
    (ZObject [
       (js "status", ZOptional (ZEnum [js "draft"; js "reviewed"; js "sent"] None));
       (js "search", ZOptional (ZString [SMax 200 None]));
       (js "startDate", ZOptional (ZString [SDatetime None]));
       (js "endDate", ZOptional (ZString [SDatetime None]))
     ])
    paginationSchema.

(** The object schemas of the module, by name. *)
Definition registry : list (string * schema) := [
  ("fileUpload", fileUploadSchema);
  ("reportId", reportIdSchema);
  ("reportUpdate", reportUpdateSchema);
  ("note", noteSchema);
  ("verification", verificationSchema);
  ("checkout", checkoutSchema);
  ("signup", signupSchema);
  ("login", loginSchema);
  ("profileUpdate", profileUpdateSchema);
  ("pagination", paginationSchema);
  ("reportFilter", reportFilterSchema)
]%string.

Inductive ValidationResult :=
| Success (data : value)
| Failure (error : jsstring)
| Throws.

(** The text of one issue: [`${e.path.join('.')}: ${e.message}`]. *)
Definition format_issue (e : ZodIssue) : jsstring :=
  join (js ".") (path e) ++ js ": " ++ message e.

Definition validateInput `{Host} (s : schema) (data : value) : ValidationResult :=
  match safeParse s data with
  | SafeSuccess d => Success d
  | SafeError errors => Failure (join (js ", ") (List.map format_issue errors))
  | SafeThrows => Throws
  end.

End Validation.

(** ** Reading the engine: issues, required fields, defaults *)

Module Engine.
Import JS Zod Validation.

Section Engine.
Context `{Host}.

(** The loop of [ZodObject._parse] over the keys of the shape. *)
Fixpoint parse_fields (p : list jsstring) (props : gmap jsstring value)
    (fields : list (jsstring * schema)) : Parse (list (jsstring * ParseReturn * bool)) :=
  match fields with
  | [] => ret []
  | (key, keyValidator) :: rest =>
      bind (_parse keyValidator (p ++ [key]) (get key props)) (fun r =>
      bind (parse_fields p props rest) (fun rs =>
      ret ((key, r, has key props) :: rs)))
  end.

(** What parsing [data] at path [p] comes to, starting from an empty
    issue list: its outcome ([None] when an exception leaves it), the
    value it returns (read as aborted when there is none), and the issues
    it records. *)
Definition outcome_of (s : schema) (p : list jsstring) (data : value)
  : option ParseReturn :=
  fst (_parse s p data []).

Definition result_of (s : schema) (p : list jsstring) (data : value) : ParseReturn :=
  default INVALID (outcome_of s p data).

Definition issues_of (s : schema) (p : list jsstring) (data : value) : list ZodIssue :=
  snd (_parse s p data []).

(** The inputs on which parsing raises: those that bring to a coercing
    number schema a value that [Number] cannot convert. *)
Fixpoint raises (s : schema) (data : value) : bool :=
  match s with
  | ZNumber true _ =>
      match ToNumber data with
      | Some _ => false
      | None => true
      end
  | ZOptional innerType =>
      match data with
      | VUndefined => false
      | _ => raises innerType data
      end
  | ZDefault innerType defaultValue =>
      match data with
      | VUndefined => raises innerType defaultValue
      | _ => raises innerType data
      end
  | ZObject shape =>
      match data with
      | VObject props => existsb (fun '(k, fs) => raises fs (get k props)) shape
      | _ => false
      end
  | _ => false
  end.

(** What the field loop returns and records for one field. *)
Definition field_result (p : list jsstring) (props : gmap jsstring value)
    (kf : jsstring * schema) : jsstring * ParseReturn * bool :=
  (fst kf, result_of (snd kf) (p ++ [fst kf]) (get (fst kf) props), has (fst kf) props).

Definition field_issues (p : list jsstring) (props : gmap jsstring value)
    (kf : jsstring * schema) : list ZodIssue :=
  issues_of (snd kf) (p ++ [fst kf]) (get (fst kf) props).

End Engine.

(** A schema without any coercing number schema. *)
Fixpoint coercion_free (s : schema) : bool :=
  match s with
  | ZNumber coerce _ => negb coerce
  | ZOptional innerType | ZDefault innerType _ => coercion_free innerType
  | ZObject shape => forallb (fun '(_, fs) => coercion_free fs) shape
  | _ => true
  end.

(** The status test [isValid]. *)
Definition is_valid (r : ParseReturn) : bool :=
  match r with VALID _ => true | _ => false end.

(** The object [mergeObjectSync] builds from the parsed fields. *)
Definition final_object (pairs : list (jsstring * ParseReturn * bool))
    (finalObject : gmap jsstring value) : gmap jsstring value :=
  fold_left (fun o '(key, r, alwaysSet) =>
               match r with
               | INVALID => o
               | DIRTY v | VALID v => set_field key v alwaysSet o
               end) pairs finalObject.



(** The required string fields of an object schema. *)
Definition required_string_fields (s : schema) : list jsstring :=
  match s with
  | ZObject shape =>
      flat_map (fun '(k, fs) => match fs with ZString _ => [k] | _ => [] end) shape
  | _ => []
  end.

(** The shape of an object schema. *)
Definition shape_of (s : schema) : list (jsstring * schema) :=
  match s with
  | ZObject shape => shape
  | _ => []
  end.

(** The field names of a shape. *)
Definition keys (shape : list (jsstring * schema)) : list jsstring :=
  List.map fst shape.

(** A shape written as an object literal: no key twice, and no
    [__proto__] key. *)
Definition wf_shape (shape : list (jsstring * schema)) : Prop :=
  NoDup (keys shape) /\ ~ In (js "__proto__") (keys shape).

(** A default that is a plain value of the type its schema parses: any
    default of a string, boolean, literal, enum or number schema, a number
    when the number schema coerces. *)
Definition plain_default (innerType : schema) (defaultValue : value) : bool :=
  match innerType, defaultValue with
  | (ZString _ | ZBoolean | ZLiteral _ _ | ZEnum _ _ | ZNumber false _), _ => true
  | ZNumber true _, VNumber _ => true
  | _, _ => false
  end.

Definition plain_defaults (shape : list (jsstring * schema)) : bool :=
  forallb (fun '(_, fs) => match fs with
                           | ZDefault innerType defaultValue =>
                               plain_default innerType defaultValue
                           | _ => true
                           end) shape.

(** [x] occurs in [e] as a substring. *)
Definition occurs_in (x e : jsstring) : Prop :=
  exists pre post, e = pre ++ x ++ post.

(** Building an object value from its properties. *)
Definition obj (l : list (string * value)) : value :=
  VObject (list_to_map (List.map (fun '(k, v) => (js k, v)) l)).

End Engine.

(** ** A host for evaluating examples *)

(** An instance of [Host] to run the schemas on concrete inputs.  Its
    number conversions are the runtime's on unsigned decimal integers of
    at most 15 digits and give [NaN] elsewhere; its format tests follow the
    wording of the specification. *)
Module SampleHost.

Definition is_digit (c : N) : bool := (48 <=? c)%N && (c <=? 57)%N.

Definition is_hex (c : N) : bool :=
  is_digit c || ((65 <=? c)%N && (c <=? 70)%N) || ((97 <=? c)%N && (c <=? 102)%N).

Definition is_char (a : ascii) (c : N) : bool := N.eqb c (char a).

(** A string matches a list of character classes when it has one
    character of each class, in order, and nothing else. *)
Fixpoint matches (classes : list (N -> bool)) (s : jsstring) : bool :=
  match classes, s with
  | [], [] => true
  | cl :: classes', c :: s' => cl c && matches classes' s'
  | _, _ => false
  end.

Definition decimal_value (s : jsstring) : Z :=
  fold_left (fun acc c => (10 * acc + (Z.of_N c - 48))%Z) s 0%Z.

Definition sample_StringToNumber (s : jsstring) : float :=
  if negb (falsy_string s) && forallb is_digit s && (length s <=? 15)%nat
  then PrimFloat.of_uint63 (Uint63.of_Z (decimal_value s))
  else nan.

Definition sample_NumberToString (x : float) : jsstring :=
  match Prim2SF x with
  | S754_zero _ => js "0"
  | S754_finite false m e =>
      if (0 <=? e)%Z then js (pretty (Z.pos m * 2 ^ e)%Z)
      else if (Z.pos m mod 2 ^ (- e) =? 0)%Z then js (pretty (Z.pos m / 2 ^ (- e))%Z)
      else js "NaN"
  | _ => js "NaN"
  end.

(** Modelled from the spec: the identifier format, a canonical
    36-character hyphenated hexadecimal token (8-4-4-4-12). *)
Definition sample_uuid (s : jsstring) : bool :=
  matches (repeat is_hex 8 ++ [is_char "-"] ++ repeat is_hex 4 ++ [is_char "-"]
           ++ repeat is_hex 4 ++ [is_char "-"] ++ repeat is_hex 4 ++ [is_char "-"]
           ++ repeat is_hex 12) s.

(** Modelled from the spec: the email format, a local part, [@], and a
    domain part containing at least one dot. *)
Fixpoint sample_email_from (seen_local : bool) (s : jsstring) : bool :=
  match s with
  | [] => false
  | c :: rest =>
      if N.eqb c (char "@")
      then seen_local && contains_char (char ".") rest
           && negb (contains_char (char "@") rest)
      else sample_email_from true rest
  end.

Definition sample_email (s : jsstring) : bool := sample_email_from false s.

(** Modelled from the spec: the ISO-8601 date-time format, here
    [YYYY-MM-DDThh:mm:ssZ]. *)
Definition sample_datetime (s : jsstring) : bool :=
  matches (repeat is_digit 4 ++ [is_char "-"] ++ repeat is_digit 2 ++ [is_char "-"]
           ++ repeat is_digit 2 ++ [is_char "T"] ++ repeat is_digit 2 ++ [is_char ":"]
           ++ repeat is_digit 2 ++ [is_char ":"] ++ repeat is_digit 2 ++ [is_char "Z"]) s.

#[export] Instance sample_host : Host := {|
  StringToNumber := sample_StringToNumber;
  NumberToString := sample_NumberToString;
  uuidRegex_test := sample_uuid;
  emailRegex_test := sample_email;
  datetimeRegex_test := sample_datetime
|}.

End SampleHost.

(** ** Further definitions: one-pass escaping, well-formed schemas *)

Module Escaping.
Import Sanitizer.

(** The replacement of one character: the entity of a target character,
    the character itself otherwise. *)
Definition escape (c : N) : jsstring :=
  if N.eqb c LT then js "&lt;"
  else if N.eqb c GT then js "&gt;"
  else if N.eqb c QUOT then js "&quot;"
  else if N.eqb c APOS then js "&#x27;"
  else if N.eqb c SLASH then js "&#x2F;"
  else [c].

End Escaping.

Module Chars.

(** The dot, of the traversal and hidden-file patterns. *)
Definition DOT : N := char ".".

End Chars.

Module WellFormed.
Import Zod Engine.

(** A schema all of whose object shapes, at any depth, are written as
    object literals: no field name twice, no [__proto__] field. *)
Fixpoint well_formed (s : schema) : bool :=
  match s with
  | ZOptional innerType | ZDefault innerType _ => well_formed innerType
  | ZObject shape =>
      bool_decide (NoDup (keys shape))
      && negb (existsb (fun k => bool_decide (k = js "__proto__")) (keys shape))
      && forallb (fun '(_, fs) => well_formed fs) shape
  | _ => true
  end.

(** A shape all of whose fields are [.optional()]. *)
Definition all_optional (shape : list (jsstring * schema)) : bool :=
  forallb (fun '(_, fs) => match fs with ZOptional _ => true | _ => false end) shape.

(** [v !== undefined] *)
Definition defined (v : value) : bool :=
  match v with VUndefined => false | _ => true end.

End WellFormed.

(** ** The health check route *)

Module Health.
Import Engine.

(** The response of [NextResponse.json(body, { status })]. *)
Record Response := mkResponse {
  body : value;
  status : Z
}.

(** [!!process.env.NAME]: an environment variable is a string when it is
    set, and only the non-empty string is truthy. *)
Definition env_truthy (variable : option jsstring) : bool :=
  match variable with
  | Some s => negb (falsy_string s)
  | None => false
  end.

(** [GET()], given the value of [process.env.VENICE_API_KEY] and the text
    of [new Date().toISOString()] at the time of the call. *)
Definition GET (VENICE_API_KEY : option jsstring) (now : jsstring) : Response :=
  let venice_api := env_truthy VENICE_API_KEY in
  let checks := [("status", VString (js "ok"));
                 ("timestamp", VString now);
                 ("venice_api", VBool venice_api)]%string in
  let allOk := venice_api in
  mkResponse (obj (checks ++ [("healthy"%string, VBool allOk)]))
             (if allOk then 200 else 503).

End Health.
(** * Properties *)

Module SanitizerFacts.
Import Sanitizer.

Example sanitize_script :
  sanitizeString (js "<script>a</script>") = js "&lt;script&gt;a&lt;&#x2F;script&gt;".
Proof. reflexivity. Qed.

Lemma replace_g_absent c rep s :
  c ∉ s -> replace_g c rep s = s.
Proof.
  induction s as [|x s IH]; intros Hc; [reflexivity|].
  apply not_elem_of_cons in Hc as [Hx Hs].
  unfold replace_g in *. simpl.
  destruct (N.eqb_spec x c) as [->|_]; [congruence|].
  simpl. now rewrite IH.
Qed.

Lemma elem_of_replace_g d c rep s :
  d ∈ replace_g c rep s -> d ∈ rep \/ (d <> c /\ d ∈ s).
Proof.
  induction s as [|x s IH]; simpl; intros Hd.
  - now apply elem_of_nil in Hd.
  - unfold replace_g in *. simpl in Hd.
    apply elem_of_app in Hd as [Hd|Hd].
    + destruct (N.eqb_spec x c) as [->|Hne]; [now left|].
      apply list_elem_of_singleton in Hd as ->.
      right. split; [assumption|]. apply elem_of_cons. now left.
    + destruct (IH Hd) as [?|[? ?]]; [now left|].
      right. split; [assumption|]. apply elem_of_cons. now right.
Qed.

(** No target character survives sanitization. *)
Lemma sanitize_clean input c :
  c ∈ targets -> c ∉ sanitizeString input.
Proof.
  intros Hc Hin. unfold sanitizeString in Hin.
  repeat (apply elem_of_replace_g in Hin as [Hin|[? Hin]];
          [ vm_compute in Hin; vm_compute in Hc;
            repeat (apply elem_of_cons in Hin as [->|Hin];
                    [ repeat (apply elem_of_cons in Hc as [Hc|Hc]; [discriminate Hc|]);
                      now apply elem_of_nil in Hc | ]);
            now apply elem_of_nil in Hin
          | ]).
  unfold targets in Hc.
  repeat (apply elem_of_cons in Hc as [->|Hc]; [congruence|]).
  now apply elem_of_nil in Hc.
Qed.

Lemma sanitize_fixes_clean s :
  (forall c, c ∈ targets -> c ∉ s) -> sanitizeString s = s.
Proof.
  intros H. unfold sanitizeString.
  rewrite (replace_g_absent LT) by (apply H; vm_compute; set_solver).
  rewrite (replace_g_absent GT) by (apply H; vm_compute; set_solver).
  rewrite (replace_g_absent QUOT) by (apply H; vm_compute; set_solver).
  rewrite (replace_g_absent APOS) by (apply H; vm_compute; set_solver).
  rewrite (replace_g_absent SLASH) by (apply H; vm_compute; set_solver).
  reflexivity.
Qed.

Lemma sanitize_twice x : sanitizeString (sanitizeString x) = sanitizeString x.
Proof. apply sanitize_fixes_clean. intros c Hc. now apply sanitize_clean. Qed.

(** C4 (as stated, refuted): no string distinguishes one application of
    [sanitizeString] from two. *)
Lemma C4_no_non_idempotent_input :
  ~ exists x, sanitizeString (sanitizeString x) <> sanitizeString x.
Proof. intros [x Hx]. apply Hx, sanitize_twice. Qed.

(** C4 (amended): [sanitizeString] is idempotent on every input, already
    escaped or not.  Since [&] is never escaped and no replacement text
    contains a target character, a second application finds nothing to
    replace; in particular an entity reference such as [&lt;] is left as
    it is. *)
Theorem C4_sanitize_idempotent :
  (forall x, sanitizeString (sanitizeString x) = sanitizeString x) /\
  sanitizeString (js "&lt;") = js "&lt;" /\
  sanitizeString (sanitizeString (js "<")) = sanitizeString (js "<").
Proof.
  split; [apply sanitize_twice|]. split; reflexivity.
Qed.

(** C8: the output of [sanitizeString] contains none of the characters
    [<], [>], double quote, apostrophe and [/]. *)
Theorem C8_sanitize_output_clean :
  forall (input : jsstring) (c : N),
    c ∈ [char "<"; char ">"; QUOT; char "'"; char "/"] ->
    c ∉ sanitizeString input.
Proof. intros input c Hc. now apply sanitize_clean. Qed.

Lemma C8_witness : char "<" ∉ sanitizeString (js "<b>it's</b>").
Proof. apply C8_sanitize_output_clean. constructor. Defined.

End SanitizerFacts.

Module UploadFacts.
Import Upload.

Lemma str_neq_spec s1 s2 : str_neq s1 s2 = negb (bool_decide (s1 = s2)).
Proof. reflexivity. Qed.

Lemma gtb_decide (a b : Z) : (a >? b)%Z = bool_decide (a > b)%Z.
Proof.
  rewrite Z.gtb_ltb. destruct (Z.ltb_spec b a); symmetry.
  - apply bool_decide_eq_true. lia.
  - apply bool_decide_eq_false. lia.
Qed.

Lemma name_check_spec (s : jsstring) :
  falsy_string s || (Z.of_nat (length s) >? 255)%Z
  = bool_decide (s = []) || bool_decide (255 < length s)%nat.
Proof.
  f_equal.
  - now destruct s.
  - rewrite gtb_decide. apply bool_decide_ext. lia.
Qed.

Lemma patterns_spec (s : jsstring) :
  existsb (fun pattern => pattern s) suspiciousPatterns
  = has_dotdot s || has_reserved s || starts_with_dot s || has_nul s.
Proof. simpl. now rewrite orb_false_r, !orb_assoc. Qed.

(** The guard, read as a cascade over the four tests of [spec_checks]. *)
Lemma validateFileUpload_cascade f :
  validateFileUpload f =
    if negb (bool_decide (type f = PDF)) then mkResult false (Some ONLY_PDF)
    else if bool_decide (size f > MAX_SIZE)%Z then mkResult false (Some TOO_BIG)
    else if bool_decide (name f = []) || bool_decide (255 < length (name f))%nat
      then mkResult false (Some BAD_NAME)
    else if has_dotdot (name f) || has_reserved (name f)
            || starts_with_dot (name f) || has_nul (name f)
      then mkResult false (Some BAD_NAME)
    else mkResult true None.
Proof.
  unfold validateFileUpload.
  now rewrite str_neq_spec, gtb_decide, name_check_spec, patterns_spec.
Qed.

(** C1: the four test vectors of the specification. *)
Theorem C1_upload_vectors :
  validateFileUpload (mkFile (js "application/pdf") 10 (js "../../etc/passwd"))
    = mkResult false (Some (js "Invalid file name")) /\
  validateFileUpload (mkFile (js "image/png") 10 (js "a.pdf"))
    = mkResult false (Some (js "Only PDF files are allowed")) /\
  validateFileUpload (mkFile (js "application/pdf") (60 * 1024 * 1024) (js "a.pdf"))
    = mkResult false (Some (js "File size must be less than 50MB")) /\
  validateFileUpload (mkFile (js "application/pdf") 10 (js "report.pdf"))
    = mkResult true None.
Proof. repeat split; vm_compute; reflexivity. Qed.

(** C7: the checks run in the order type, size, name length, name
    patterns, and the first violated one decides: whenever the check at
    position [i] of the ordered list is violated and none before it is,
    the result is the rejection carrying that check's message, and only
    that one; a descriptor that violates no check is accepted.  In
    particular a wrong type is reported whatever the size and the name. *)
Theorem C7_first_violation_reported :
  (forall f i chk msg,
      spec_checks !! i = Some (chk, msg) ->
      chk f = true ->
      (forall j chk' msg', (j < i)%nat -> spec_checks !! j = Some (chk', msg') -> chk' f = false) ->
      validateFileUpload f = mkResult false (Some msg)) /\
  (forall f,
      (forall j chk' msg', spec_checks !! j = Some (chk', msg') -> chk' f = false) ->
      validateFileUpload f = mkResult true None) /\
  (forall f, type f <> js "application/pdf" ->
      validateFileUpload f = mkResult false (Some (js "Only PDF files are allowed"))).
Proof.
  split; [|split].
  - intros f i chk msg Hi Hv Hbefore.
    rewrite validateFileUpload_cascade.
    destruct i as [|[|[|[|i]]]]; simpl in Hi; try discriminate;
      injection Hi as <- <-.
    + now rewrite Hv.
    + rewrite (Hbefore 0%nat _ _ ltac:(lia) eq_refl). now rewrite Hv.
    + rewrite (Hbefore 0%nat _ _ ltac:(lia) eq_refl).
      rewrite (Hbefore 1%nat _ _ ltac:(lia) eq_refl). now rewrite Hv.
    + rewrite (Hbefore 0%nat _ _ ltac:(lia) eq_refl).
      rewrite (Hbefore 1%nat _ _ ltac:(lia) eq_refl).
      rewrite (Hbefore 2%nat _ _ ltac:(lia) eq_refl). now rewrite Hv.
  - intros f Hnone. rewrite validateFileUpload_cascade.
    rewrite (Hnone 0%nat _ _ eq_refl), (Hnone 1%nat _ _ eq_refl),
      (Hnone 2%nat _ _ eq_refl), (Hnone 3%nat _ _ eq_refl).
    reflexivity.
  - intros f Hty. rewrite validateFileUpload_cascade.
    now rewrite (bool_decide_eq_false_2 _ Hty).
Qed.

(** A descriptor violating the type, the size and the name check at once
    is rejected for its type. *)
Lemma C7_witness :
  validateFileUpload (mkFile (js "image/png") (60 * 1024 * 1024) (js "../x"))
    = mkResult false (Some ONLY_PDF) /\
  validateFileUpload (mkFile PDF (60 * 1024 * 1024) (js "../x"))
    = mkResult false (Some TOO_BIG) /\
  validateFileUpload (mkFile PDF 10 (js "r.pdf")) = mkResult true None.
Proof.
  destruct C7_first_violation_reported as (Hfirst & Hnone & Htype).
  split; [|split].
  - apply Htype. vm_compute. discriminate.
  - apply (Hfirst _ 1%nat _ _ eq_refl); [reflexivity|].
    intros [|j] chk' msg' Hj Hl; [|lia].
    injection Hl as <- <-. reflexivity.
  - apply Hnone.
    intros [|[|[|[|j]]]] chk' msg' Hl; simpl in Hl; try discriminate;
      injection Hl as <- <-; reflexivity.
Defined.

(** C9: the ceiling is inclusive.  A PDF of exactly 50 MiB with a
    well-formed name is accepted, and a descriptor is rejected with the
    size message exactly when its type is accepted and its size is
    strictly greater than 50 MiB. *)
Theorem C9_size_ceiling_inclusive :
  validateFileUpload (mkFile (js "application/pdf") (50 * 1024 * 1024) (js "report.pdf"))
    = mkResult true None /\
  (forall f, type f = js "application/pdf" -> size f = (50 * 1024 * 1024)%Z ->
     validateFileUpload f = validateFileUpload (mkFile (type f) 0 (name f))) /\
  (forall f, error (validateFileUpload f) = Some (js "File size must be less than 50MB")
     <-> type f = js "application/pdf" /\ (size f > 50 * 1024 * 1024)%Z).
Proof.
  split; [vm_compute; reflexivity|]. split.
  - intros f Hty Hsz. rewrite !validateFileUpload_cascade. simpl.
    rewrite Hsz. reflexivity.
  - intros f. rewrite validateFileUpload_cascade.
    change (js "application/pdf") with PDF.
    change (50 * 1024 * 1024)%Z with MAX_SIZE.
    destruct (bool_decide_reflect (type f = PDF)) as [Hty|Hty]; simpl.
    + destruct (bool_decide_reflect (size f > MAX_SIZE)%Z) as [Hsz|Hsz]; simpl.
      * split; [now intros _|reflexivity].
      * split; [|now intros [_ ?]].
        destruct (_ || _); [|destruct (_ || _)]; simpl; intros H; discriminate H.
    + split; [intros H; discriminate H|now intros [? _]].
Qed.

Lemma C9_witness :
  validateFileUpload (mkFile PDF (50 * 1024 * 1024) (js "x.pdf"))
    = validateFileUpload (mkFile PDF 0 (js "x.pdf")) /\
  error (validateFileUpload (mkFile PDF (50 * 1024 * 1024 + 1) (js "x.pdf")))
    = Some TOO_BIG.
Proof.
  destruct C9_size_ceiling_inclusive as (_ & Heq & Hiff).
  split.
  - apply (Heq (mkFile PDF (50 * 1024 * 1024) (js "x.pdf"))); reflexivity.
  - apply Hiff. split; [reflexivity|]. simpl. lia.
Defined.

(** C10: the result carries an error exactly when it is invalid, the
    error is one of the three messages of the guard, and an accepted
    descriptor carries no error. *)
Theorem C10_result_invariant :
  forall f,
    (is_Some (error (validateFileUpload f)) <-> valid (validateFileUpload f) = false) /\
    (forall e, error (validateFileUpload f) = Some e ->
       e = js "Only PDF files are allowed" \/
       e = js "File size must be less than 50MB" \/
       e = js "Invalid file name") /\
    (valid (validateFileUpload f) = true -> error (validateFileUpload f) = None).
Proof.
  intros f. unfold validateFileUpload.
  repeat match goal with |- context [if ?b then _ else _] => destruct b end;
    simpl; (split; [|split]);
    try (split; intros H; (reflexivity || discriminate H || eauto || (destruct H as [? H]; discriminate H)));
    try (intros e H; injection H as <-; auto);
    try (intros e H; discriminate H);
    try (intros H; (reflexivity || discriminate H)).
Qed.

End UploadFacts.

Module EngineFacts.
Import JS Zod Validation Engine.

(** Induction on schemas, with the hypothesis for every field of a
    shape. *)
Lemma schema_ind' (P : schema -> Prop)
  (HString : forall checks, P (ZString checks))
  (HNumber : forall coerce checks, P (ZNumber coerce checks))
  (HBoolean : P ZBoolean)
  (HLiteral : forall v m, P (ZLiteral v m))
  (HEnum : forall vs m, P (ZEnum vs m))
  (HOptional : forall s, P s -> P (ZOptional s))
  (HDefault : forall s d, P s -> P (ZDefault s d))
  (HObject : forall shape, Forall (fun kf => P (snd kf)) shape -> P (ZObject shape)) :
  forall s, P s.
Proof.
  fix IH 1. intros [checks|coerce checks| |v m|vs m|s|s d|shape].
  - apply HString.
  - apply HNumber.
  - apply HBoolean.
  - apply HLiteral.
  - apply HEnum.
  - apply HOptional, IH.
  - apply HDefault, IH.
  - apply HObject. induction shape as [|[k fs] shape IHshape]; constructor.
    + apply IH.
    + apply IHshape.
Qed.

Section Facts.
Context `{Host}.

Lemma parse_object_unfold shape p props :
  _parse (ZObject shape) p (VObject props)
  = bind (parse_fields p props shape) (fun pairs => ret (mergeObjectSync pairs false ∅)).
Proof.
  cbn [_parse]. f_equal.
  induction shape as [|[k fs] shape IH]; cbn; [reflexivity|].
  now rewrite IH.
Qed.

(** *** Issues only accumulate *)

Lemma run_checks_acc {C A} (fails : C -> A -> bool) msg checks p (data : A) dirty acc :
  run_checks fails msg checks p data dirty acc
  = (Some (dirty || existsb (fun c => fails c data) checks),
     acc ++ List.map (fun c => mkIssue p (msg c))
              (List.filter (fun c => fails c data) checks)).
Proof.
  revert dirty acc. induction checks as [|c checks IH]; intros dirty acc; cbn.
  - unfold ret. now rewrite orb_false_r, app_nil_r.
  - destruct (fails c data) eqn:Hc; cbn.
    + unfold bind, addIssueToContext. rewrite IH. cbn.
      now rewrite orb_true_r, <- app_assoc.
    + apply IH.
Qed.

Lemma run_checks_spec {C A} (fails : C -> A -> bool) msg checks p (data : A) dirty :
  run_checks fails msg checks p data dirty []
  = (Some (dirty || existsb (fun c => fails c data) checks),
     List.map (fun c => mkIssue p (msg c)) (List.filter (fun c => fails c data) checks)).
Proof. now rewrite run_checks_acc. Qed.

Lemma parse_fields_acc p props shape :
  Forall (fun kf => forall p data acc,
            _parse (snd kf) p data acc
            = (outcome_of (snd kf) p data, acc ++ issues_of (snd kf) p data)) shape ->
  forall acc,
    parse_fields p props shape acc
    = (fst (parse_fields p props shape []), acc ++ snd (parse_fields p props shape [])).
Proof.
  induction 1 as [|[k fs] shape Hfs _ IHshape]; intros acc; cbn.
  - unfold ret. cbn. now rewrite app_nil_r.
  - unfold bind, ret. cbn in Hfs.
    rewrite (Hfs _ _ acc), (Hfs _ _ []). cbn.
    destruct (outcome_of fs (p ++ [k]) (get k props)) as [r|]; cbn;
      [|reflexivity].
    rewrite (IHshape (acc ++ _)), (IHshape (issues_of _ _ _)).
    destruct (fst (parse_fields p props shape [])); cbn; now rewrite app_assoc.
Qed.

Lemma parse_acc s : forall p data acc,
  _parse s p data acc = (outcome_of s p data, acc ++ issues_of s p data).
Proof.
  unfold outcome_of, issues_of.
  induction s as [checks|coerce checks| |v m|vs m|s IH|s d IH|shape IH] using schema_ind';
    intros p data acc.
  - destruct data; cbn; unfold bind, addIssueToContext, ret; cbn; try reflexivity.
    now rewrite run_checks_acc, run_checks_spec.
  - cbn [_parse]. unfold bind, coerce_input.
    destruct coerce; [destruct (ToNumber data) as [x|]|]; unfold ret, throw;
      cbn [fst snd].
    + cbn. destruct (PrimFloat.is_nan x); unfold bind, addIssueToContext, ret; cbn;
        try reflexivity.
      now rewrite run_checks_acc, run_checks_spec.
    + now rewrite app_nil_r.
    + destruct data; cbn; unfold bind, addIssueToContext, ret; cbn; try reflexivity.
      destruct (PrimFloat.is_nan _); cbn; try reflexivity.
      now rewrite run_checks_acc, run_checks_spec.
  - destruct data; cbn; unfold bind, addIssueToContext, ret; cbn;
      now rewrite ?app_nil_r.
  - destruct data; cbn; unfold bind, addIssueToContext, ret; cbn; try reflexivity.
    destruct (bool_decide _); cbn; now rewrite ?app_nil_r.
  - destruct data; cbn; unfold bind, addIssueToContext, ret; cbn; try reflexivity.
    destruct (existsb _ _); cbn; now rewrite ?app_nil_r.
  - destruct data; cbn; try apply IH. unfold ret. cbn. now rewrite app_nil_r.
  - destruct data; cbn; apply IH.
  - destruct data; try (cbn; unfold bind, addIssueToContext, ret; cbn; reflexivity).
    rewrite parse_object_unfold. unfold bind, ret.
    rewrite (parse_fields_acc p props shape IH acc).
    destruct (parse_fields p props shape []) as [[pairs|] issues]; reflexivity.
Qed.

(** *** When a parse raises *)

Lemma outcome_default s p data :
  outcome_of s p data = None \/ outcome_of s p data = Some (result_of s p data).
Proof.
  unfold result_of. destruct (outcome_of s p data); [now right|now left].
Qed.

Lemma parse_fields_outcome p props shape :
  Forall (fun kf => forall p data,
            outcome_of (snd kf) p data
            = if raises (snd kf) data then None
              else Some (result_of (snd kf) p data)) shape ->
  parse_fields p props shape []
  = (if existsb (fun '(k, fs) => raises fs (get k props)) shape then None
     else Some (List.map (field_result p props) shape),
     snd (parse_fields p props shape [])).
Proof.
  induction 1 as [|[k fs] shape Hfs Hrest IHshape]; cbn; [reflexivity|].
  unfold bind, ret. rewrite parse_acc. cbn [app]. cbn in Hfs. rewrite Hfs.
  destruct (raises fs (get k props)); cbn [orb]; [reflexivity|].
  rewrite parse_fields_acc
    by (apply List.Forall_forall; intros; apply parse_acc).
  rewrite IHshape. cbn [fst snd].
  destruct (existsb _ shape); reflexivity.
Qed.

Lemma outcome_raises s : forall p data,
  outcome_of s p data
  = if raises s data then None else Some (result_of s p data).
Proof.
  assert (Hsome : forall s p data,
             outcome_of s p data <> None ->
             outcome_of s p data = Some (result_of s p data)).
  { intros s' p data Hne. destruct (outcome_default s' p data); [contradiction|assumption]. }
  induction s as [checks|coerce checks| |v m|vs m|s IH|s d IH|shape IH] using schema_ind';
    intros p data.
  - cbn [raises]. apply Hsome. unfold outcome_of.
    destruct data; cbn; unfold bind, addIssueToContext, ret; cbn; try discriminate.
    rewrite run_checks_spec. discriminate.
  - destruct coerce.
    + cbn [raises]. unfold result_of, outcome_of. cbn [_parse].
      unfold bind, coerce_input.
      destruct (ToNumber data) as [x|]; unfold ret, throw; cbn; [|reflexivity].
      destruct (PrimFloat.is_nan x); unfold bind, addIssueToContext, ret; cbn;
        try reflexivity.
      now rewrite run_checks_spec.
    + cbn [raises]. apply Hsome. unfold outcome_of. cbn [_parse].
      unfold bind, coerce_input, ret.
      destruct data; cbn; unfold bind, addIssueToContext, ret; cbn; try discriminate.
      destruct (PrimFloat.is_nan x); cbn; try discriminate.
      rewrite run_checks_spec. discriminate.
  - cbn [raises]. apply Hsome. unfold outcome_of.
    destruct data; cbn; discriminate.
  - cbn [raises]. apply Hsome. unfold outcome_of.
    destruct data; cbn; try discriminate.
    destruct (bool_decide _); cbn; discriminate.
  - cbn [raises]. apply Hsome. unfold outcome_of.
    destruct data; cbn; try discriminate.
    destruct (existsb _ _); cbn; discriminate.
  - destruct data; cbn [raises]; try apply IH. reflexivity.
  - destruct data; cbn [raises]; apply IH.
  - destruct data; cbn [raises]; try reflexivity.
    unfold result_of, outcome_of. rewrite parse_object_unfold. unfold bind, ret.
    rewrite (parse_fields_outcome p props shape IH).
    destruct (existsb _ shape); reflexivity.
Qed.

Lemma result_no_raise s p data v :
  result_of s p data = VALID v -> raises s data = false.
Proof.
  unfold result_of. rewrite outcome_raises.
  destruct (raises s data); [discriminate|reflexivity].
Qed.

Lemma coercion_free_no_raise s : forall data,
  coercion_free s = true -> raises s data = false.
Proof.
  induction s as [checks|coerce checks| |v m|vs m|s IH|s d IH|shape IH] using schema_ind';
    intros data Hfree; try reflexivity.
  - cbn in Hfree. now destruct coerce.
  - destruct data; cbn; try reflexivity; now apply IH.
  - destruct data; cbn; now apply IH.
  - destruct data; cbn [raises]; try reflexivity.
    cbn [coercion_free] in Hfree.
    induction IH as [|[k fs] shape Hfs _ IHshape]; cbn; [reflexivity|].
    cbn in Hfree. apply andb_true_iff in Hfree as [Hk Hfree].
    cbn in Hfs. rewrite (Hfs _ Hk). now apply IHshape.
Qed.

(** *** What the field loop computes *)

Lemma parse_fields_spec p props shape :
  existsb (fun '(k, fs) => raises fs (get k props)) shape = false ->
  parse_fields p props shape []
  = (Some (List.map (field_result p props) shape), flat_map (field_issues p props) shape).
Proof.
  induction shape as [|[k fs] shape IH]; cbn; [reflexivity|].
  intros Hno. apply orb_false_iff in Hno as [Hk Hno].
  unfold bind, ret. rewrite parse_acc, outcome_raises, Hk. cbn [app].
  rewrite parse_fields_acc
    by (apply List.Forall_forall; intros; apply parse_acc).
  now rewrite (IH Hno).
Qed.

Lemma result_of_object shape p props :
  raises (ZObject shape) (VObject props) = false ->
  result_of (ZObject shape) p (VObject props)
  = mergeObjectSync (List.map (field_result p props) shape) false ∅.
Proof.
  intros Hno. unfold result_of, outcome_of.
  rewrite parse_object_unfold. unfold bind, ret.
  now rewrite (parse_fields_spec _ _ _ Hno).
Qed.

Lemma issues_of_object shape p props :
  raises (ZObject shape) (VObject props) = false ->
  issues_of (ZObject shape) p (VObject props)
  = flat_map (field_issues p props) shape.
Proof.
  intros Hno. unfold issues_of.
  rewrite parse_object_unfold. unfold bind, ret.
  now rewrite (parse_fields_spec _ _ _ Hno).
Qed.

(** *** A parse is valid exactly when it records no issue *)

Lemma mergeObjectSync_valid pairs dirty finalObject :
  is_valid (mergeObjectSync pairs dirty finalObject)
  = negb dirty && forallb (fun '(_, r, _) => is_valid r) pairs.
Proof.
  revert dirty finalObject.
  induction pairs as [|[[k r] a] pairs IH]; intros dirty finalObject; cbn.
  - destruct dirty; reflexivity.
  - destruct r; cbn; rewrite ?IH; destruct dirty; reflexivity.
Qed.

Lemma checks_none_fail {C A} (fails : C -> A -> bool) (msg : C -> jsstring) p
    (checks : list C) (data : A) :
  existsb (fun c => fails c data) checks = false
  <-> List.map (fun c => mkIssue p (msg c)) (List.filter (fun c => fails c data) checks) = [].
Proof.
  induction checks as [|c checks IH]; cbn; [tauto|].
  destruct (fails c data); cbn; [split; discriminate|exact IH].
Qed.

Lemma valid_iff_no_issues s : forall p data,
  raises s data = false ->
  (is_valid (result_of s p data) = true <-> issues_of s p data = []).
Proof.
  induction s as [checks|coerce checks| |v m|vs m|s IH|s d IH|shape IH] using schema_ind';
    intros p data Hno.
  - unfold result_of, outcome_of, issues_of.
    destruct data; cbn; unfold bind, addIssueToContext, ret; cbn;
      try (split; discriminate).
    rewrite run_checks_spec. cbn.
    rewrite <- (checks_none_fail string_check_fails string_check_message p).
    destruct (existsb _ _); cbn; split; (reflexivity || discriminate).
  - unfold result_of, outcome_of, issues_of. cbn [_parse]. unfold bind, coerce_input.
    assert (Hdata : exists data',
               (if coerce
                then match ToNumber data with
                     | Some x => ret (VNumber x)
                     | None => throw
                     end
                else ret data) [] = (Some data', [])).
    { destruct coerce; [|now eexists]. cbn in Hno.
      destruct (ToNumber data); [now eexists|discriminate]. }
    destruct Hdata as (data' & ->).
    destruct data'; cbn; unfold bind, addIssueToContext, ret; cbn;
      try (split; discriminate).
    destruct (PrimFloat.is_nan x); cbn; try (split; discriminate).
    rewrite run_checks_spec. cbn.
    rewrite <- (checks_none_fail number_check_fails number_check_message p).
    destruct (existsb _ _); cbn; split; (reflexivity || discriminate).
  - unfold result_of, outcome_of, issues_of.
    destruct data; cbn; split; (reflexivity || discriminate).
  - unfold result_of, outcome_of, issues_of.
    destruct data; cbn; try (split; discriminate).
    destruct (bool_decide _); cbn; split; (reflexivity || discriminate).
  - unfold result_of, outcome_of, issues_of.
    destruct data; cbn; try (split; discriminate).
    destruct (existsb _ _); cbn; split; (reflexivity || discriminate).
  - destruct data; try (apply IH; exact Hno).
    unfold result_of, outcome_of, issues_of. cbn. split; reflexivity.
  - destruct data; apply IH; exact Hno.
  - destruct data;
      try (unfold result_of, outcome_of, issues_of; cbn; split; discriminate).
    rewrite result_of_object, issues_of_object, mergeObjectSync_valid by exact Hno.
    cbn [negb andb]. cbn [raises] in Hno.
    induction IH as [|[k fs] shape Hfs _ IHshape]; cbn; [split; reflexivity|].
    cbn in Hno. apply orb_false_iff in Hno as [Hk Hno].
    unfold field_issues at 1, field_result at 1. cbn in Hfs |- *.
    rewrite andb_true_iff, (IHshape Hno), (Hfs _ _ Hk).
    split.
    + intros [-> ->]. reflexivity.
    + intros Happ. apply app_eq_nil in Happ. exact Happ.
Qed.

(** *** [validateInput] in terms of the recorded issues *)

Lemma validateInput_spec s data :
  validateInput s data
  = if raises s data then Throws
    else match issues_of s [] data with
         | [] => match result_of s [] data with
                 | VALID d => Success d
                 | _ => Throws
                 end
         | issues => Failure (join (js ", ") (List.map format_issue issues))
         end.
Proof.
  unfold validateInput, safeParse.
  rewrite (parse_acc s [] data []). cbn [app].
  rewrite outcome_raises.
  destruct (raises s data) eqn:Hno; [reflexivity|].
  pose proof (valid_iff_no_issues s [] data Hno) as Hv.
  destruct (issues_of s [] data) as [|i issues];
    destruct (result_of s [] data) eqn:Hr; try reflexivity.
  cbn in Hv. destruct Hv as [Hv _]. discriminate (Hv eq_refl).
Qed.

Lemma validateInput_success s data :
  raises s data = false ->
  issues_of s [] data = [] ->
  exists d, result_of s [] data = VALID d /\ validateInput s data = Success d.
Proof.
  intros Hno Hnil.
  pose proof (proj2 (valid_iff_no_issues s [] data Hno) Hnil) as Hv.
  rewrite validateInput_spec, Hno, Hnil.
  destruct (result_of s [] data); try discriminate. eauto.
Qed.

Lemma validateInput_failure s data :
  raises s data = false ->
  issues_of s [] data <> [] ->
  validateInput s data
  = Failure (join (js ", ") (List.map format_issue (issues_of s [] data))).
Proof.
  intros Hno Hne. rewrite validateInput_spec, Hno.
  destruct (issues_of s [] data); [contradiction|reflexivity].
Qed.

Lemma throws_iff_raises s data :
  validateInput s data = Throws <-> raises s data = true.
Proof.
  rewrite validateInput_spec.
  destruct (raises s data) eqn:Hno; [tauto|].
  split; [|discriminate].
  destruct (issues_of s [] data) eqn:Hi; [|discriminate].
  destruct (validateInput_success s data Hno Hi) as (d & -> & _). discriminate.
Qed.

(** *** Absent required fields *)


Lemma field_issues_in_object shape p props k fs i :
  raises (ZObject shape) (VObject props) = false ->
  In (k, fs) shape ->
  In i (issues_of fs (p ++ [k]) (get k props)) ->
  In i (issues_of (ZObject shape) p (VObject props)).
Proof.
  intros Hno Hin Hi. rewrite issues_of_object by exact Hno.
  apply in_flat_map. exists (k, fs). split; [assumption|exact Hi].
Qed.

Lemma occurs_in_join sep x l :
  In x l -> occurs_in x (join sep l).
Proof.
  induction l as [|y l IH]; intros Hin; [destruct Hin|].
  destruct Hin as [->|Hin].
  - destruct l as [|z l].
    + exists [], []. cbn. now rewrite app_nil_r.
    + exists [], (sep ++ join sep (z :: l)). reflexivity.
  - destruct (IH Hin) as (pre & post & Heq).
    destruct l as [|z l]; [destruct Hin|].
    exists (y ++ sep ++ pre), post.
    change (join sep (y :: z :: l)) with (y ++ sep ++ join sep (z :: l)).
    rewrite Heq. now rewrite <- !app_assoc.
Qed.

Lemma get_absent (k : jsstring) (props : gmap jsstring value) :
  props !! k = None -> get k props = VUndefined.
Proof. intros Hk. unfold get. now rewrite Hk. Qed.


Lemma returns_no_raise s data :
  validateInput s data <> Throws -> raises s data = false.
Proof.
  intros Hnt. destruct (raises s data) eqn:Hr; [|reflexivity].
  apply throws_iff_raises in Hr. contradiction.
Qed.


(** *** The data of a successful parse *)

Lemma mergeObjectSync_value pairs dirty finalObject d :
  mergeObjectSync pairs dirty finalObject = VALID d ->
  d = VObject (final_object pairs finalObject).
Proof.
  revert dirty finalObject.
  induction pairs as [|[[k r] a] pairs IH]; intros dirty finalObject; cbn.
  - destruct dirty; intros Heq; now inversion Heq.
  - destruct r; [discriminate| |]; apply IH.
Qed.

Lemma set_field_lookup_ne (k k' : jsstring) (v : value) (a : bool)
    (o : gmap jsstring value) :
  k <> k' -> set_field k v a o !! k' = o !! k'.
Proof.
  intros Hne. unfold set_field.
  destruct (_ && _); [|reflexivity]. now apply lookup_insert_ne.
Qed.

Lemma final_object_lookup_other (k : jsstring)
    (pairs : list (jsstring * ParseReturn * bool)) (o : gmap jsstring value) :
  ~ In k (List.map (fun kra => fst (fst kra)) pairs) ->
  final_object pairs o !! k = o !! k.
Proof.
  revert o. induction pairs as [|[[k' r] a] pairs IH]; intros o Hk; [reflexivity|].
  cbn in Hk. unfold final_object in *. cbn.
  rewrite IH by tauto.
  destruct r; [reflexivity| |]; apply set_field_lookup_ne; tauto.
Qed.

Lemma final_object_keys (k : jsstring)
    (pairs : list (jsstring * ParseReturn * bool)) (o : gmap jsstring value) :
  is_Some (final_object pairs o !! k) ->
  is_Some (o !! k) \/ In k (List.map (fun kra => fst (fst kra)) pairs).
Proof.
  destruct (decide (k ∈ List.map (fun kra => fst (fst kra)) pairs)) as [Hin|Hnin].
  - right. now apply list_elem_of_In.
  - rewrite final_object_lookup_other by (now rewrite <- list_elem_of_In). now left.
Qed.

Lemma final_object_lookup (k : jsstring) (v : value) (a : bool)
    (pairs : list (jsstring * ParseReturn * bool)) (o : gmap jsstring value) :
  NoDup (List.map (fun kra => fst (fst kra)) pairs) ->
  In (k, VALID v, a) pairs ->
  k <> js "__proto__" ->
  v <> VUndefined ->
  final_object pairs o !! k = Some v.
Proof.
  revert o. induction pairs as [|[[k' r] a'] pairs IH]; intros o Hnd Hin Hk Hv;
    [destruct Hin|].
  cbn in Hnd. apply NoDup_cons in Hnd as [Hk' Hnd].
  destruct Hin as [Heq|Hin].
  - injection Heq as -> -> ->.
    unfold final_object. cbn. fold (final_object pairs (set_field k v a o)).
    rewrite final_object_lookup_other by (now rewrite <- list_elem_of_In).
    unfold set_field. rewrite bool_decide_eq_false_2 by assumption.
    destruct v; try contradiction; cbn; apply lookup_insert_eq.
  - unfold final_object. cbn. now apply IH.
Qed.

Lemma plain_default_result innerType defaultValue p d :
  plain_default innerType defaultValue = true ->
  result_of innerType p defaultValue = VALID d ->
  d = defaultValue /\ defaultValue <> VUndefined.
Proof.
  unfold result_of, outcome_of.
  destruct innerType as [checks|[|] checks| |v m|vs m|s|s d'|shape];
    destruct defaultValue; cbn; try discriminate; intros _;
    unfold bind, addIssueToContext, ret; cbn; try discriminate.
  - rewrite run_checks_spec. cbn. destruct (existsb _ _); cbn; [discriminate|].
    intros Heq. inversion Heq. split; [reflexivity|discriminate].
  - destruct (PrimFloat.is_nan x); cbn; [discriminate|].
    rewrite run_checks_spec. cbn. destruct (existsb _ _); cbn; [discriminate|].
    intros Heq. inversion Heq. split; [reflexivity|discriminate].
  - destruct (PrimFloat.is_nan x); cbn; [discriminate|].
    rewrite run_checks_spec. cbn. destruct (existsb _ _); cbn; [discriminate|].
    intros Heq. inversion Heq. split; [reflexivity|discriminate].
  - intros Heq. inversion Heq. split; [reflexivity|discriminate].
  - destruct (bool_decide _); cbn; [|discriminate].
    intros Heq. inversion Heq. split; [reflexivity|discriminate].
  - destruct (existsb _ _); cbn; [|discriminate].
    intros Heq. inversion Heq. split; [reflexivity|discriminate].
Qed.

Lemma object_success shape data d :
  validateInput (ZObject shape) data = Success d ->
  exists props,
    data = VObject props /\
    d = VObject (final_object (List.map (field_result [] props) shape) ∅) /\
    Forall (fun kf => is_valid (result_of (snd kf) [fst kf] (get (fst kf) props)) = true) shape.
Proof.
  rewrite validateInput_spec.
  destruct (raises _ _) eqn:Hno; [discriminate|].
  destruct (issues_of _ _ _) eqn:Hi; [|discriminate].
  destruct (result_of _ _ _) as [| |d'] eqn:Hr; try discriminate.
  intros Heq. injection Heq as ->.
  destruct data; try (unfold issues_of in Hi; cbn in Hi; discriminate).
  exists props. split; [reflexivity|].
  rewrite result_of_object in Hr by exact Hno. split.
  - now apply mergeObjectSync_value in Hr.
  - assert (Hv : is_valid (mergeObjectSync (List.map (field_result [] props) shape) false ∅) = true)
      by now rewrite Hr.
    rewrite mergeObjectSync_valid in Hv. cbn in Hv.
    apply List.Forall_forall. intros [k fs] Hin.
    rewrite forallb_forall in Hv.
    apply (Hv (field_result [] props (k, fs))).
    apply in_map. exact Hin.
Qed.

Lemma object_ignores_extras shape props props' :
  (forall k, In k (keys shape) -> props !! k = props' !! k) ->
  validateInput (ZObject shape) (VObject props)
  = validateInput (ZObject shape) (VObject props').
Proof.
  intros Hagree.
  assert (Hraise : raises (ZObject shape) (VObject props)
                   = raises (ZObject shape) (VObject props')).
  { cbn [raises].
    assert (Hext : forall l : list (jsstring * schema),
               (forall kf, In kf l -> In kf shape) ->
               existsb (fun '(k, fs) => raises fs (get k props)) l
               = existsb (fun '(k, fs) => raises fs (get k props')) l).
    { induction l as [|[k fs] l IH]; intros Hsub; [reflexivity|]. cbn.
      rewrite IH by (intros kf Hkf; apply Hsub; now right).
      unfold get. rewrite (Hagree k); [reflexivity|].
      apply (in_map fst _ (k, fs)). apply Hsub. now left. }
    now apply Hext. }
  rewrite !validateInput_spec, <- Hraise.
  destruct (raises (ZObject shape) (VObject props)) eqn:Hno; [reflexivity|].
  rewrite !issues_of_object, !result_of_object by congruence.
  assert (Hres : List.map (field_result [] props) shape
                 = List.map (field_result [] props') shape).
  { apply map_ext_in. intros [k fs] Hin. unfold field_result, get, has. cbn.
    rewrite (Hagree k); [reflexivity|]. apply (in_map fst) in Hin. exact Hin. }
  assert (His : flat_map (field_issues [] props) shape
                = flat_map (field_issues [] props') shape).
  { rewrite !flat_map_concat_map. f_equal.
    apply map_ext_in. intros [k fs] Hin. unfold field_issues, get. cbn.
    rewrite (Hagree k); [reflexivity|]. apply (in_map fst) in Hin. exact Hin. }
  now rewrite Hres, His.
Qed.

Lemma registry_shapes name s :
  In (name, s) registry ->
  exists shape, s = ZObject shape /\ wf_shape shape /\ plain_defaults shape = true.
Proof.
  intros Hin. cbn in Hin.
  repeat (destruct Hin as [Heq|Hin];
          [ injection Heq as <- <-; eexists; split; [reflexivity|];
            split; [split|reflexivity];
            [ apply (bool_decide_unpack _); vm_compute; exact I
            | rewrite <- list_elem_of_In; apply (bool_decide_unpack _); vm_compute; exact I ]
          | ]).
  destruct Hin.
Qed.

(** C6: the data of a successful validation against an object schema is
    an object whose keys are all declared in the schema, extra input
    fields having no influence on the result at all; and a field declared
    with a default that the input omits is present in the data with that
    default.  The side conditions on the shape (an object literal with
    plain defaults) hold for every schema of the registry. *)
Theorem C6_success_data :
  (forall shape data d,
     validateInput (ZObject shape) data = Success d ->
     exists props out,
       data = VObject props /\ d = VObject out /\
       (forall k, is_Some (out !! k) -> In k (keys shape)) /\
       (wf_shape shape -> plain_defaults shape = true ->
        forall k innerType defaultValue,
          In (k, ZDefault innerType defaultValue) shape ->
          props !! k = None ->
          out !! k = Some defaultValue)) /\
  (forall shape props props',
     (forall k, In k (keys shape) -> props !! k = props' !! k) ->
     validateInput (ZObject shape) (VObject props)
     = validateInput (ZObject shape) (VObject props')) /\
  (forall name s,
     In (name, s) registry ->
     exists shape, s = ZObject shape /\ wf_shape shape /\ plain_defaults shape = true).
Proof.
  split; [|split].
  - intros shape data d Hok.
    destruct (object_success _ _ _ Hok) as (props & -> & -> & Hvalid).
    exists props, (final_object (List.map (field_result [] props) shape) ∅).
    split; [reflexivity|]. split; [reflexivity|]. split.
    + intros k Hk. apply final_object_keys in Hk as [Hk|Hk].
      * rewrite lookup_empty in Hk. now destruct Hk.
      * rewrite map_map in Hk. exact Hk.
    + intros [Hnd Hproto] Hplain k innerType defaultValue Hin Hk.
      rewrite List.Forall_forall in Hvalid. specialize (Hvalid _ Hin). cbn in Hvalid.
      rewrite (get_absent _ _ Hk) in Hvalid.
      destruct (result_of (ZDefault innerType defaultValue) [k] VUndefined)
        as [| |v] eqn:Hr; try discriminate.
      unfold plain_defaults in Hplain. rewrite forallb_forall in Hplain.
      specialize (Hplain _ Hin). cbn in Hplain.
      assert (Hr' : result_of innerType [k] defaultValue = VALID v) by exact Hr.
      destruct (plain_default_result _ _ _ _ Hplain Hr') as [-> Hdef].
      apply (final_object_lookup k defaultValue (has k props)).
      * rewrite map_map. exact Hnd.
      * change (k, VALID defaultValue, has k props)
          with (k, VALID defaultValue, has (fst (k, ZDefault innerType defaultValue)) props).
        rewrite <- Hr.
        apply (in_map (field_result [] props)) in Hin.
        unfold field_result in Hin at 1. cbn in Hin.
        rewrite (get_absent _ _ Hk) in Hin. exact Hin.
      * intros ->. apply Hproto. apply (in_map fst) in Hin. exact Hin.
      * exact Hdef.
  - apply object_ignores_extras.
  - apply registry_shapes.
Qed.

(** *** Pagination *)

(** C5: against the pagination schema the empty object validates to
    [{page: 1, limit: 20}], [{page: '3'}] validates to
    [{page: 3, limit: 20}] (given that the runtime converts the string
    ['3'] to the number 3), and [{limit: 101}] is rejected. *)
Theorem C5_pagination_vectors :
  StringToNumber (js "3") = 3%float ->
  validateInput paginationSchema (obj [])
    = Success (obj [("page", VNumber 1); ("limit", VNumber 20)]) /\
  validateInput paginationSchema (obj [("page", VString (js "3"))])
    = Success (obj [("page", VNumber 3); ("limit", VNumber 20)]) /\
  exists e, validateInput paginationSchema (obj [("limit", VNumber 101)]) = Failure e.
Proof.
  intros H3. split; [|split].
  - vm_compute. reflexivity.
  - unfold validateInput, safeParse, paginationSchema, obj.
    cbn [_parse List.map]. unfold bind at 1.
    cbn [bind ret get has list_to_map foldr uncurry].
    replace (get (js "page") _) with (VString (js "3")) by (vm_compute; reflexivity).
    cbn [_parse coerce_input ToNumber]. rewrite H3.
    vm_compute. reflexivity.
  - eexists. vm_compute. reflexivity.
Qed.

(** *** Empty strings and absent fields *)

Lemma string_rejects shape k checks str props :
  raises (ZObject shape) (VObject props) = false ->
  In (k, ZString checks) shape ->
  existsb (fun c => string_check_fails c str) checks = true ->
  props !! k = Some (VString str) ->
  exists e, validateInput (ZObject shape) (VObject props) = Failure e.
Proof.
  intros Hno Hin Hex Hk. eexists. apply validateInput_failure; [exact Hno|].
  apply existsb_exists in Hex as (c & Hc & Hf).
  assert (Hi : In (mkIssue [k] (string_check_message c))
                 (issues_of (ZObject shape) [] (VObject props))).
  { apply (field_issues_in_object shape [] props k (ZString checks)); [assumption..|].
    unfold get. rewrite Hk. cbn [default].
    unfold issues_of. cbn. unfold bind, ret. rewrite run_checks_spec. cbn.
    apply (in_map (fun c => mkIssue [k] (string_check_message c))).
    apply filter_In. auto. }
  intros Hnil. rewrite Hnil in Hi. destruct Hi.
Qed.

Lemma required_string_field_in shape k :
  In k (required_string_fields (ZObject shape)) ->
  exists checks, In (k, ZString checks) shape.
Proof.
  cbn. intros Hin. apply in_flat_map in Hin as ([k' fs] & Hin & Hk).
  destruct fs; try (now destruct Hk). destruct Hk as [->|[]]. eauto.
Qed.

Lemma absent_string_rejected shape k props :
  raises (ZObject shape) (VObject props) = false ->
  In k (required_string_fields (ZObject shape)) ->
  props !! k = None ->
  exists e, validateInput (ZObject shape) (VObject props) = Failure e /\
            occurs_in (k ++ js ": Required") e.
Proof.
  intros Hno Hin Hk. destruct (required_string_field_in _ _ Hin) as (checks & Hin').
  assert (Hi : In (mkIssue [k] (js "Required"))
                 (issues_of (ZObject shape) [] (VObject props))).
  { apply (field_issues_in_object shape [] props k (ZString checks)); [assumption..|].
    rewrite (get_absent _ _ Hk). now left. }
  eexists. split.
  - apply validateInput_failure; [exact Hno|].
    intros Hnil. rewrite Hnil in Hi. destruct Hi.
  - apply occurs_in_join. apply (in_map format_issue) in Hi. exact Hi.
Qed.

(** C2 (amended): when the identifier and email formats reject the empty
    string, every required string field of every registered schema other
    than the [note] field of the note schema rejects the empty string,
    whatever the rest of the input.  The [note] field, which only declares
    a maximum length, accepts it.  An absent required string field, [note]
    included, is always rejected, with a [Required] entry. *)
Theorem C2_empty_string_rejected_except_note :
  uuidRegex_test [] = false ->
  emailRegex_test [] = false ->
  (forall name s k props,
     In (name, s) registry ->
     In k (required_string_fields s) ->
     (name, k) <> ("note"%string, js "note") ->
     props !! k = Some (VString []) ->
     exists e, validateInput s (VObject props) = Failure e) /\
  (forall reportId,
     uuidRegex_test reportId = true ->
     validateInput noteSchema
       (obj [("reportId", VString reportId); ("itemId", VString (js "item-1"));
             ("note", VString [])])
     = Success (obj [("reportId", VString reportId); ("itemId", VString (js "item-1"));
                     ("note", VString [])])) /\
  (forall name s k props,
     In (name, s) registry ->
     In k (required_string_fields s) ->
     props !! k = None ->
     exists e, validateInput s (VObject props) = Failure e /\
               occurs_in (k ++ js ": Required") e).
Proof.
  intros Hu He. split; [|split].
  - intros name s k props Hin Hk Hne Hempty.
    cbn in Hin.
    repeat (destruct Hin as [Heq|Hin];
      [ injection Heq as <- <-; vm_compute in Hk;
        repeat (destruct Hk as [<-|Hk];
          [ try (exfalso; apply Hne; reflexivity);
            try (match type of Hempty with
                 | _ !! ?key = _ => eapply (string_rejects _ key _ [])
                 end;
                 [ apply coercion_free_no_raise; reflexivity
                 | repeat first [left; reflexivity | right]
                 | cbn [existsb string_check_fails]; rewrite ?Hu, ?He; vm_compute; reflexivity
                 | exact Hempty ])
          | ]);
        destruct Hk
      | ]).
    destruct Hin.
  - intros reportId Hid.
    rewrite validateInput_spec.
    rewrite (coercion_free_no_raise noteSchema) by reflexivity.
    unfold noteSchema, uuidSchema, obj.
    rewrite issues_of_object, result_of_object
      by (apply (coercion_free_no_raise noteSchema); reflexivity).
    unfold field_issues, field_result, issues_of, result_of, outcome_of.
    cbn [flat_map List.map fst snd].
    replace (get (js "reportId") _) with (VString reportId) by (vm_compute; reflexivity).
    replace (get (js "itemId") _) with (VString (js "item-1")) by (vm_compute; reflexivity).
    replace (get (js "note") _) with (VString []) by (vm_compute; reflexivity).
    cbn [_parse run_checks string_check_fails]. rewrite Hid.
    vm_compute. reflexivity.
  - intros name s k props Hin Hk Hnone.
    cbn in Hin.
    repeat (destruct Hin as [Heq|Hin];
      [ injection Heq as <- <-;
        first [ apply absent_string_rejected;
                [ apply coercion_free_no_raise; reflexivity | exact Hk | exact Hnone ]
              | vm_compute in Hk; destruct Hk ]
      | ]).
    destruct Hin.
Qed.

End Facts.

(** *** The claims on a concrete host *)

Import SampleHost.



Lemma C5_witness :
  validateInput paginationSchema (obj [("page", VString (js "3"))])
  = Success (obj [("page", VNumber 3); ("limit", VNumber 20)]).
Proof.
  apply (C5_pagination_vectors (H := sample_host)). reflexivity.
Defined.

(** An input with an unknown field and no pagination field: the data is
    exactly the two defaults. *)
Lemma C6_witness :
  exists out,
    validateInput paginationSchema (obj [("utm", VString (js "x"))]) = Success (VObject out) /\
    out !! js "utm" = None /\
    out !! js "page" = Some (VNumber 1) /\
    out !! js "limit" = Some (VNumber 20).
Proof.
  destruct (C6_success_data (H := sample_host)) as (Hdata & _ & Hreg).
  destruct (Hreg "pagination"%string paginationSchema) as (shape & Heq & Hwf & Hplain).
  { cbn. tauto. }
  injection Heq as <-.
  destruct (Hdata (shape_of paginationSchema) (obj [("utm", VString (js "x"))])
              (obj [("page", VNumber 1); ("limit", VNumber 20)]))
    as (props & out & Hprops & Hout & Hkeys & Hdef).
  { vm_compute. reflexivity. }
  injection Hprops as <-.
  exists out. split; [rewrite <- Hout; vm_compute; reflexivity|]. split; [|split].
  - destruct (out !! js "utm") eqn:Hutm; [|reflexivity].
    exfalso. assert (Hin : In (js "utm") (keys (shape_of paginationSchema)))
      by (apply Hkeys; eauto).
    cbn in Hin. destruct Hin as [Hin|[Hin|[]]]; vm_compute in Hin; discriminate Hin.
  - eapply (Hdef Hwf Hplain); [left; reflexivity|]. vm_compute. reflexivity.
  - eapply (Hdef Hwf Hplain); [right; left; reflexivity|]. vm_compute. reflexivity.
Defined.

(** C2 (as stated, refuted): [note] is a required string field of the
    registered note schema, and an input whose [note] is the empty string
    validates. *)
Lemma C2_note_accepts_empty_string :
  In ("note"%string, noteSchema) registry /\
  In (js "note") (required_string_fields noteSchema) /\
  validateInput noteSchema
    (obj [("reportId", VString (js "123e4567-e89b-42d3-a456-426614174000"));
          ("itemId", VString (js "item-1"));
          ("note", VString [])])
  = Success
      (obj [("reportId", VString (js "123e4567-e89b-42d3-a456-426614174000"));
            ("itemId", VString (js "item-1"));
            ("note", VString [])]).
Proof.
  split; [cbn; tauto|]. split; [cbn; tauto|]. vm_compute. reflexivity.
Qed.

Lemma C2_witness :
  exists e,
    validateInput loginSchema
      (obj [("email", VString (js "ann@example.com")); ("password", VString [])])
    = Failure e.
Proof.
  destruct (C2_empty_string_rejected_except_note (H := sample_host) eq_refl eq_refl)
    as (Hempty & _).
  apply (Hempty "login"%string loginSchema (js "password")).
  - cbn. tauto.
  - cbn. tauto.
  - intros Heq. discriminate Heq.
  - vm_compute. reflexivity.
Defined.

End EngineFacts.

(** * Further properties *)

Module SanitizerExtra.
Import Sanitizer Escaping.

Lemma replace_g_app c rep a b :
  replace_g c rep (a ++ b) = replace_g c rep a ++ replace_g c rep b.
Proof. unfold replace_g. apply flat_map_app. Qed.

Lemma sanitize_app a b :
  sanitizeString (a ++ b) = sanitizeString a ++ sanitizeString b.
Proof. unfold sanitizeString. now rewrite !replace_g_app. Qed.

Lemma sanitize_singleton c : sanitizeString [c] = escape c.
Proof.
  unfold escape.
  destruct (N.eqb_spec c LT) as [->|H1]; [reflexivity|].
  destruct (N.eqb_spec c GT) as [->|H2]; [reflexivity|].
  destruct (N.eqb_spec c QUOT) as [->|H3]; [reflexivity|].
  destruct (N.eqb_spec c APOS) as [->|H4]; [reflexivity|].
  destruct (N.eqb_spec c SLASH) as [->|H5]; [reflexivity|].
  unfold sanitizeString, replace_g. cbn [flat_map app].
  rewrite (proj2 (N.eqb_neq c LT) H1). cbn [flat_map app].
  rewrite (proj2 (N.eqb_neq c GT) H2). cbn [flat_map app].
  rewrite (proj2 (N.eqb_neq c QUOT) H3). cbn [flat_map app].
  rewrite (proj2 (N.eqb_neq c APOS) H4). cbn [flat_map app].
  rewrite (proj2 (N.eqb_neq c SLASH) H5). reflexivity.
Qed.

Lemma sanitize_flat_map s : sanitizeString s = flat_map escape s.
Proof.
  induction s as [|c s IH]; [reflexivity|].
  change (c :: s) with ([c] ++ s).
  rewrite sanitize_app, sanitize_singleton, IH. reflexivity.
Qed.

Lemma escape_length c : (1 <= length (escape c) <= 6)%nat.
Proof.
  unfold escape.
  repeat match goal with |- context [if ?b then _ else _] => destruct b end;
    cbn; lia.
Qed.

(** X1: the five successive replacements amount to a single pass that
    replaces each character of the input by its own escape: no pass
    rewrites the output of an earlier one. *)
Theorem X1_sanitize_single_pass :
  forall input, sanitizeString input = flat_map escape input.
Proof. apply sanitize_flat_map. Qed.

(** X2: sanitizing a concatenation is concatenating the sanitized parts. *)
Theorem X2_sanitize_concat :
  forall a b, sanitizeString (a ++ b) = sanitizeString a ++ sanitizeString b.
Proof. apply sanitize_app. Qed.

(** X3: the strings [sanitizeString] leaves unchanged are exactly those
    without any of the five target characters. *)
Theorem X3_sanitize_fixed_points :
  forall input,
    sanitizeString input = input <-> (forall c, c ∈ targets -> c ∉ input).
Proof.
  intros input. split.
  - intros Heq c Hc. rewrite <- Heq. now apply SanitizerFacts.sanitize_clean.
  - apply SanitizerFacts.sanitize_fixes_clean.
Qed.

(** X4: the output is at least as long as the input and at most six times
    as long. *)
Theorem X4_sanitize_length :
  forall input,
    (length input <= length (sanitizeString input) <= 6 * length input)%nat.
Proof.
  intros input. rewrite sanitize_flat_map.
  induction input as [|c s IH]; cbn; [lia|].
  rewrite length_app. pose proof (escape_length c). lia.
Qed.

(** X5: sanitization loses information: two different inputs, a raw
    character and its entity, have the same output, so no function
    recovers every input from its sanitized form. *)
Theorem X5_sanitize_not_injective :
  ~ (forall x y, sanitizeString x = sanitizeString y -> x = y) /\
  ~ (exists unescape, forall x, unescape (sanitizeString x) = x).
Proof.
  assert (Hsame : sanitizeString (js "<") = sanitizeString (js "&lt;")) by reflexivity.
  split.
  - intros Hinj. specialize (Hinj _ _ Hsame). discriminate Hinj.
  - intros [unescape Hun].
    pose proof (Hun (js "<")) as H1. pose proof (Hun (js "&lt;")) as H2.
    rewrite Hsame in H1. rewrite H1 in H2. discriminate H2.
Qed.

End SanitizerExtra.

Module UploadExtra.
Import Upload Chars.

Lemma has_dotdot_true s :
  has_dotdot s = true <-> exists pre post, s = pre ++ [DOT; DOT] ++ post.
Proof.
  split.
  - induction s as [|a s IH]; [discriminate|].
    destruct s as [|b s]; [discriminate|].
    cbn [has_dotdot]. intros H.
    apply orb_true_iff in H as [H|H].
    + apply andb_true_iff in H as [Ha Hb].
      apply N.eqb_eq in Ha, Hb. subst. now exists [], s.
    + destruct (IH H) as (pre & post & Heq).
      exists (a :: pre), post. cbn. now rewrite Heq.
  - intros (pre & post & ->).
    induction pre as [|a pre IH].
    + cbn. destruct post; reflexivity.
    + cbn [app has_dotdot] in *.
      destruct (pre ++ DOT :: DOT :: post) eqn:Heq.
      * destruct pre; discriminate Heq.
      * rewrite IH. apply orb_true_r.
Qed.

Lemma has_reserved_true s :
  has_reserved s = true <-> exists c, c ∈ s /\ c ∈ reserved.
Proof.
  unfold has_reserved, contains_char. rewrite existsb_exists.
  split.
  - intros (c & Hc & Hr). exists c. split; [now apply list_elem_of_In|].
    apply existsb_exists in Hr as (r & Hr & Heq).
    apply N.eqb_eq in Heq. subst. now apply list_elem_of_In.
  - intros (c & Hc & Hr). exists c. split; [now apply list_elem_of_In|].
    apply existsb_exists. exists c. split; [now apply list_elem_of_In|].
    apply N.eqb_refl.
Qed.

Lemma has_nul_true s : has_nul s = true <-> 0%N ∈ s.
Proof.
  unfold has_nul, contains_char. rewrite existsb_exists. split.
  - intros (c & Hc & Heq). apply N.eqb_eq in Heq. subst.
    now apply list_elem_of_In.
  - intros H0. exists 0%N. split; [now apply list_elem_of_In|reflexivity].
Qed.

Lemma starts_with_dot_true s :
  starts_with_dot s = true <-> exists rest, s = DOT :: rest.
Proof.
  destruct s as [|c s]; cbn.
  - split; [discriminate|]. intros [rest H]. discriminate H.
  - rewrite N.eqb_eq. split.
    + intros ->. now exists s.
    + intros [rest H]. now injection H.
Qed.

Lemma accepted_iff f :
  validateFileUpload f = mkResult true None <->
  type f = PDF /\ (size f <= MAX_SIZE)%Z /\ name f <> []
  /\ (length (name f) <= 255)%nat
  /\ has_dotdot (name f) = false /\ has_reserved (name f) = false
  /\ starts_with_dot (name f) = false /\ has_nul (name f) = false.
Proof.
  rewrite UploadFacts.validateFileUpload_cascade.
  destruct (bool_decide_reflect (type f = PDF)) as [Hty|Hty]; cbn [negb];
    [|split; [discriminate|tauto]].
  destruct (bool_decide_reflect (size f > MAX_SIZE)%Z) as [Hsz|Hsz];
    [split; [discriminate|intros (_ & ? & _); lia]|].
  destruct (bool_decide_reflect (name f = [])) as [Hn|Hn]; cbn [orb];
    [split; [discriminate|tauto]|].
  destruct (bool_decide_reflect (255 < length (name f))%nat) as [Hl|Hl];
    [split; [discriminate|intros (_ & _ & _ & ? & _); lia]|].
  destruct (has_dotdot (name f)), (has_reserved (name f)),
    (starts_with_dot (name f)), (has_nul (name f)); cbn;
    split; try discriminate; try (intros (_ & _ & _ & _ & ? & ? & ? & ?); discriminate);
    intros _; repeat split; try assumption; lia.
Qed.

(** X6: a descriptor is accepted exactly when its type is
    [application/pdf], its size is at most 50 MiB, and its name has between
    1 and 255 characters, contains no two consecutive dots, none of the
    reserved characters and no NUL, and does not begin with a dot. *)
Theorem X6_accepted_characterization :
  forall f,
    valid (validateFileUpload f) = true <->
    type f = js "application/pdf"
    /\ (size f <= 50 * 1024 * 1024)%Z
    /\ (1 <= length (name f) <= 255)%nat
    /\ ~ (exists pre post, name f = pre ++ js ".." ++ post)
    /\ (forall c, c ∈ name f -> (c ∉ reserved) /\ c <> 0%N)
    /\ ~ (exists rest, name f = char "." :: rest).
Proof.
  intros f.
  assert (Hv : valid (validateFileUpload f) = true
               <-> validateFileUpload f = mkResult true None).
  { split; [|now intros ->].
    unfold validateFileUpload.
    repeat match goal with |- context [if ?b then _ else _] => destruct b end;
      cbn; intros H; (discriminate H || reflexivity). }
  rewrite Hv, accepted_iff.
  change (js "application/pdf") with PDF.
  change (50 * 1024 * 1024)%Z with MAX_SIZE.
  change (js "..") with [DOT; DOT]. change (char ".") with DOT.
  rewrite <- has_dotdot_true, <- starts_with_dot_true.
  split.
  - intros (Hty & Hsz & Hne & Hlen & Hdd & Hres & Hsd & Hnul).
    repeat split; try assumption.
    + destruct (name f); [contradiction|cbn; lia].
    + now rewrite Hdd.
    + intros Hr. assert (has_reserved (name f) = true)
        by (apply has_reserved_true; eauto). congruence.
    + intros ->. assert (has_nul (name f) = true) by now apply has_nul_true.
      congruence.
    + now rewrite Hsd.
  - intros (Hty & Hsz & [Hlen1 Hlen2] & Hdd & Hchars & Hsd).
    repeat split; try assumption.
    + intros Hnil. rewrite Hnil in Hlen1. cbn in Hlen1. lia.
    + now destruct (has_dotdot (name f)).
    + destruct (has_reserved (name f)) eqn:Hr; [|reflexivity].
      apply has_reserved_true in Hr as (c & Hc & Hr).
      now destruct (Hchars c Hc).
    + now destruct (starts_with_dot (name f)).
    + destruct (has_nul (name f)) eqn:Hn; [|reflexivity].
      apply has_nul_true in Hn. now destruct (Hchars _ Hn).
Qed.

Lemma X6_witness :
  valid (validateFileUpload (mkFile PDF 0 (js "a.b/c d.pdf"))) = true.
Proof.
  apply X6_accepted_characterization. repeat split.
  - cbn. lia.
  - cbn. lia.
  - cbn. lia.
  - intros Hdd. change (js "..") with [DOT; DOT] in Hdd.
    apply has_dotdot_true in Hdd. discriminate Hdd.
  - intros Hr. apply (bool_decide_pack _) in Hr. vm_compute in Hr.
    revert Hr. apply (bool_decide_unpack _).
    apply list_elem_of_In in H. cbn in H.
    repeat (destruct H as [<-|H]; [vm_compute; exact I|]). destruct H.
  - intros ->. apply list_elem_of_In in H. cbn in H.
    repeat (destruct H as [H|H]; [discriminate H|]). destruct H.
  - intros [rest Hrest]. discriminate Hrest.
Defined.

Lemma has_dotdot_app_false a b :
  has_dotdot (a ++ b) = false -> has_dotdot a = false /\ has_dotdot b = false.
Proof.
  intros H. split.
  - destruct (has_dotdot a) eqn:Ha; [|reflexivity].
    apply has_dotdot_true in Ha as (pre & post & ->).
    assert (has_dotdot ((pre ++ [DOT; DOT] ++ post) ++ b) = true).
    { apply has_dotdot_true. exists pre, (post ++ b).
      now rewrite <- !app_assoc. }
    congruence.
  - destruct (has_dotdot b) eqn:Hb; [|reflexivity].
    apply has_dotdot_true in Hb as (pre & post & ->).
    assert (has_dotdot (a ++ pre ++ [DOT; DOT] ++ post) = true).
    { apply has_dotdot_true. exists (a ++ pre), post.
      now rewrite <- !app_assoc. }
    congruence.
Qed.

Lemma has_dotdot_insert a c b :
  c <> DOT -> has_dotdot a = false -> has_dotdot b = false ->
  has_dotdot (a ++ c :: b) = false.
Proof.
  intros Hc Ha Hb.
  destruct (has_dotdot (a ++ c :: b)) eqn:H; [|reflexivity].
  apply has_dotdot_true in H as (pre & post & Heq).
  exfalso. revert pre Heq Ha. induction a as [|x a IH]; intros pre Heq Ha.
  - cbn [app] in Heq. destruct pre as [|y pre]; cbn [app] in Heq.
    + injection Heq as -> _. now apply Hc.
    + injection Heq as _ Heq.
      assert (has_dotdot b = true)
        by (apply has_dotdot_true; exists pre, post; exact Heq).
      congruence.
  - destruct pre as [|y pre]; cbn [app] in Heq.
    + injection Heq as -> Heq.
      destruct a as [|z a]; cbn [app] in Heq; injection Heq as Hz _.
      * now apply Hc.
      * rewrite Hz in Ha. cbn [has_dotdot] in Ha.
        rewrite !N.eqb_refl in Ha. discriminate Ha.
    + injection Heq as _ Heq.
      apply (IH pre Heq).
      change (x :: a) with ([x] ++ a) in Ha.
      now apply has_dotdot_app_false in Ha.
Qed.

(** X7: the guard never rejects a name for a path separator: inserting a
    character that is neither a dot, nor reserved, nor NUL (a slash or a
    backslash, for one) anywhere in an accepted name of fewer than 255
    characters gives a descriptor that is accepted too. *)
Theorem X7_separator_accepted :
  forall f c pre post,
    c <> char "." -> c <> 0%N -> c ∉ reserved ->
    name f = pre ++ post ->
    (length (name f) < 255)%nat ->
    validateFileUpload f = mkResult true None ->
    validateFileUpload (mkFile (type f) (size f) (pre ++ c :: post)) = mkResult true None.
Proof.
  intros f c pre post Hdot Hnul Hres Hname Hlen Hok.
  apply accepted_iff in Hok as (Hty & Hsz & Hne & _ & Hdd & Hr & Hsd & Hn).
  apply accepted_iff. cbn [type size name].
  rewrite Hname in *.
  apply has_dotdot_app_false in Hdd as [Hdd1 Hdd2].
  repeat split; try assumption.
  - now destruct pre.
  - rewrite length_app in *. cbn. lia.
  - now apply has_dotdot_insert.
  - destruct (has_reserved (pre ++ c :: post)) eqn:Hr'; [|reflexivity].
    apply has_reserved_true in Hr' as (d & Hd & Hdr).
    assert (Hd' : d ∈ pre ++ post \/ d = c).
    { apply elem_of_app in Hd as [Hd|Hd].
      - left. apply elem_of_app. now left.
      - apply elem_of_cons in Hd as [->|Hd]; [now right|].
        left. apply elem_of_app. now right. }
    destruct Hd' as [Hd'| ->]; [|contradiction].
    assert (has_reserved (pre ++ post) = true)
      by (apply has_reserved_true; eauto).
    congruence.
  - destruct pre as [|x pre]; cbn in *.
    + now apply N.eqb_neq.
    + exact Hsd.
  - destruct (has_nul (pre ++ c :: post)) eqn:Hn'; [|reflexivity].
    apply has_nul_true in Hn'.
    assert (Hd' : 0%N ∈ pre ++ post).
    { apply elem_of_app in Hn' as [Hd|Hd].
      - apply elem_of_app. now left.
      - apply elem_of_cons in Hd as [Hd|Hd]; [now symmetry in Hd|].
        apply elem_of_app. now right. }
    apply has_nul_true in Hd'. congruence.
Qed.

Lemma X7_witness :
  validateFileUpload (mkFile PDF 10 (js "/etc/passwd")) = mkResult true None.
Proof.
  apply (X7_separator_accepted (mkFile PDF 10 (js "/etcpasswd")) (char "/")
           (js "/etc") (js "passwd")).
  - discriminate.
  - discriminate.
  - apply (bool_decide_unpack _). vm_compute. exact I.
  - reflexivity.
  - cbn. lia.
  - vm_compute. reflexivity.
Defined.

End UploadExtra.

Module HealthFacts.
Import Health Engine.

(** X8: the health route answers 200 exactly when [VENICE_API_KEY] is set
    to a non-empty string and 503 otherwise, an empty value counting as
    unset; the [healthy] and [venice_api] fields of the body both tell
    whether the answer is 200, while the [status] field of the body is
    [ok] in either case. *)
Theorem X8_health_status :
  forall key now,
    (status (GET key now) = 200%Z <-> exists c s, key = Some (c :: s)) /\
    (status (GET key now) = 503%Z <-> key = None \/ key = Some []) /\
    body (GET key now)
    = obj [("status", VString (js "ok")); ("timestamp", VString now);
           ("venice_api", VBool (Z.eqb (status (GET key now)) 200));
           ("healthy", VBool (Z.eqb (status (GET key now)) 200))]%string.
Proof.
  intros [[|c s]|] now; cbn; (split; [|split]); try reflexivity;
    split; try discriminate; eauto.
  - intros (c & s & H). discriminate H.
  - intros [H|H]; discriminate H.
  - intros (c & s & H). discriminate H.
Qed.

End HealthFacts.

Module EngineExtra.
Import JS Zod Validation Engine WellFormed EngineFacts.

Section Extra.
Context `{Host}.

Lemma validateInput_of_result s data d :
  result_of s [] data = VALID d -> validateInput s data = Success d.
Proof.
  intros Hr. pose proof (result_no_raise _ _ _ _ Hr) as Hno.
  assert (Hi : issues_of s [] data = [])
    by (apply (valid_iff_no_issues s [] data Hno); now rewrite Hr).
  destruct (validateInput_success s data Hno Hi) as (d' & Hr' & ->).
  congruence.
Qed.

Lemma result_of_success s data d :
  validateInput s data = Success d -> result_of s [] data = VALID d.
Proof.
  rewrite validateInput_spec.
  destruct (raises s data); [discriminate|].
  destruct (issues_of s [] data); [|discriminate].
  destruct (result_of s [] data); try discriminate. now intros [= ->].
Qed.

Lemma success_no_raise s data d :
  validateInput s data = Success d -> raises s data = false.
Proof.
  intros Hok. apply result_of_success in Hok. now apply result_no_raise in Hok.
Qed.

Lemma failure_no_raise s data e :
  validateInput s data = Failure e -> raises s data = false.
Proof.
  rewrite validateInput_spec. destruct (raises s data); [discriminate|reflexivity].
Qed.

Lemma fields_no_raise (props : gmap jsstring value) (shape : list (jsstring * schema)) :
  (forall k fs, In (k, fs) shape -> raises fs (get k props) = false) ->
  raises (ZObject shape) (VObject props) = false.
Proof.
  cbn [raises]. induction shape as [|[k fs] shape IH]; intros Hall; [reflexivity|].
  cbn. rewrite (Hall k fs) by now left. apply IH.
  intros k' fs' Hin. apply Hall. now right.
Qed.

Lemma object_no_raise_field (props : gmap jsstring value) shape k fs :
  raises (ZObject shape) (VObject props) = false ->
  In (k, fs) shape -> raises fs (get k props) = false.
Proof.
  cbn [raises]. intros Hno Hin.
  destruct (raises fs (get k props)) eqn:Hr; [|reflexivity].
  assert (existsb (fun '(k, fs) => raises fs (get k props)) shape = true)
    by (apply existsb_exists; exists (k, fs); auto).
  congruence.
Qed.



(** X10: an input that is not an object is rejected by every object
    schema with one entry whose path is empty: [: Required] for
    [undefined], [: Expected object, received T] for any other type [T]
    (null, array, string, number, boolean). *)
Theorem X10_non_object_input :
  forall shape data,
    (forall props, data <> VObject props) ->
    validateInput (ZObject shape) data
    = Failure (js ": " ++
               match data with
               | VUndefined => js "Required"
               | _ => js "Expected object, received " ++ type_name (getParsedType data)
               end).
Proof.
  intros shape data Hno.
  destruct data; try reflexivity.
  - unfold validateInput, safeParse. cbn.
    destruct (PrimFloat.is_nan x); reflexivity.
  - now destruct (Hno props).
Qed.

(** *** The paths of the issues *)

Lemma object_issue_field shape p props i :
  In i (issues_of (ZObject shape) p (VObject props)) ->
  exists k fs, In (k, fs) shape /\ In i (issues_of fs (p ++ [k]) (get k props)).
Proof.
  unfold issues_of at 1. rewrite parse_object_unfold. unfold bind, ret.
  assert (Hfields : In i (snd (parse_fields p props shape [])) ->
            exists k fs, In (k, fs) shape /\ In i (issues_of fs (p ++ [k]) (get k props))).
  { induction shape as [|[k fs] shape IH]; cbn; [intros []|].
    unfold bind, ret. rewrite parse_acc. cbn [app].
    destruct (outcome_of fs (p ++ [k]) (get k props)).
    - rewrite parse_fields_acc
        by (apply List.Forall_forall; intros; apply parse_acc).
      intros Hin.
      assert (Hin' : In i (issues_of fs (p ++ [k]) (get k props) ++
                           snd (parse_fields p props shape []))).
      { destruct (fst (parse_fields p props shape [])); exact Hin. }
      apply in_app_or in Hin' as [Hin'|Hin'].
      + exists k, fs. split; [now left|exact Hin'].
      + destruct (IH Hin') as (k' & fs' & Hkf & Hi).
        exists k', fs'. split; [now right|exact Hi].
    - cbn. intros Hin. exists k, fs. split; [now left|exact Hin]. }
  intros Hin. apply Hfields.
  destruct (parse_fields p props shape []) as [[pairs|] issues]; exact Hin.
Qed.

Lemma issue_path_prefix s : forall p data i,
  In i (issues_of s p data) -> exists rest, path i = p ++ rest.
Proof.
  assert (Hhere : forall p msg i, In i [mkIssue p msg] -> exists rest, path i = p ++ rest).
  { intros p msg i [<-|[]]. exists []. cbn. now rewrite app_nil_r. }
  assert (Hchecks : forall {C} (msg : C -> jsstring) p (l : list C) i,
             In i (List.map (fun c => mkIssue p (msg c)) l) -> exists rest, path i = p ++ rest).
  { intros C msg p l i Hin. apply in_map_iff in Hin as (c & <- & _).
    exists []. cbn. now rewrite app_nil_r. }
  induction s as [checks|coerce checks| |v m|vs m|s IH|s d IH|shape IH] using schema_ind';
    intros p data i.
  - unfold issues_of. destruct data; cbn; try apply Hhere.
    unfold bind, ret. rewrite run_checks_spec. cbn. apply Hchecks.
  - unfold issues_of. cbn [_parse]. unfold bind, coerce_input.
    assert (Hbody : forall data',
               In i (snd (match getParsedType data', data' with
                          | Tnumber, VNumber x =>
                              bind (run_checks number_check_fails number_check_message
                                      checks p x false)
                                (fun dirty => ret (if dirty then DIRTY data' else VALID data'))
                          | received, _ =>
                              bind (addIssueToContext p
                                      (invalid_type_message (js "number") received))
                                (fun _ => ret INVALID)
                          end [])) ->
               exists rest, path i = p ++ rest).
    { intros data'. destruct data'; cbn; try apply Hhere.
      destruct (PrimFloat.is_nan x); cbn; try apply Hhere.
      unfold bind, ret. rewrite run_checks_spec. cbn. apply Hchecks. }
    destruct coerce; [destruct (ToNumber data)|]; unfold ret, throw; cbn [fst snd];
      try apply Hbody. intros [].
  - unfold issues_of. destruct data; cbn; try apply Hhere. intros [].
  - unfold issues_of. destruct data; cbn; try apply Hhere.
    destruct (bool_decide _); cbn; [intros []|apply Hhere].
  - unfold issues_of. destruct data; cbn; try apply Hhere.
    destruct (existsb _ _); cbn; [intros []|apply Hhere].
  - destruct data; try apply IH. unfold issues_of. cbn. intros [].
  - destruct data; apply IH.
  - destruct data; try (unfold issues_of; cbn; apply Hhere).
    intros Hin. apply object_issue_field in Hin as (k & fs & Hkf & Hin).
    rewrite List.Forall_forall in IH.
    destruct (IH _ Hkf _ _ _ Hin) as (rest & ->).
    exists (k :: rest). cbn. now rewrite <- app_assoc.
Qed.

(** X11: the issues recorded for an object only name declared fields:
    the path of each of them starts with a key of the shape, so an extra
    field of the input never appears in an error message. *)
Theorem X11_issues_name_declared_fields :
  forall shape props i,
    In i (issues_of (ZObject shape) [] (VObject props)) ->
    exists k rest, path i = k :: rest /\ In k (keys shape).
Proof.
  intros shape props i Hin.
  apply object_issue_field in Hin as (k & fs & Hkf & Hin).
  destruct (issue_path_prefix _ _ _ _ Hin) as (rest & Hp).
  exists k, rest. split; [exact Hp|].
  apply (in_map fst) in Hkf. exact Hkf.
Qed.

(** *** Single-field schemas *)

(** X12: the checkout schema accepts exactly the inputs whose [plan] is
    the string [monthly] or [yearly], returning the object that holds the
    plan alone; on every other input (plan absent, of another type, or any
    other string) the message is the custom one, and nothing else. *)
Theorem X12_checkout_plan :
  forall props,
    match props !! js "plan" with
    | Some (VString plan) =>
        if bool_decide (plan = js "monthly" \/ plan = js "yearly") then
          validateInput checkoutSchema (VObject props)
          = Success (obj [("plan", VString plan)])
        else
          validateInput checkoutSchema (VObject props)
          = Failure (js "plan: Invalid plan. Must be monthly or yearly.")
    | _ =>
        validateInput checkoutSchema (VObject props)
        = Failure (js "plan: Invalid plan. Must be monthly or yearly.")
    end.
Proof.
  intros props.
  rewrite validateInput_spec.
  rewrite (coercion_free_no_raise checkoutSchema) by reflexivity.
  unfold checkoutSchema.
  rewrite issues_of_object, result_of_object
    by (apply (coercion_free_no_raise checkoutSchema); reflexivity).
  unfold field_issues, field_result, issues_of, result_of, outcome_of, get, has.
  cbn [flat_map List.map fst snd].
  destruct (props !! js "plan") as [[| |b|x|plan|items|o]|] eqn:Hp;
    cbn [default]; unfold id; try reflexivity.
  cbn [_parse existsb].
  destruct (bool_decide_reflect (js "monthly" = plan)) as [<-|Hm].
    + rewrite bool_decide_eq_true_2 by (now left). reflexivity.
    + destruct (bool_decide_reflect (js "yearly" = plan)) as [<-|Hy].
      * rewrite bool_decide_eq_true_2 by (now right). reflexivity.
      * rewrite bool_decide_eq_false_2 by (intros [->| ->]; congruence).
        reflexivity.
Qed.

(** X13: the two format schemas used on their own.  A string is accepted
    unchanged when the format test passes and rejected with the custom
    message, under an empty path, when it does not; a value that is not a
    string never reaches the format test. *)
Theorem X13_format_schemas :
  (forall s,
     validateInput emailSchema (VString s)
     = if emailRegex_test s then Success (VString s)
       else Failure (js ": Invalid email format")) /\
  (forall s,
     validateInput uuidSchema (VString s)
     = if uuidRegex_test s then Success (VString s)
       else Failure (js ": Invalid UUID format")) /\
  (forall data,
     (forall s, data <> VString s) ->
     validateInput emailSchema data = validateInput (ZString []) data /\
     validateInput uuidSchema data = validateInput (ZString []) data /\
     exists e, validateInput (ZString []) data = Failure e).
Proof.
  split; [|split].
  - intros s. unfold validateInput, safeParse. cbn.
    destruct (emailRegex_test s); reflexivity.
  - intros s. unfold validateInput, safeParse. cbn.
    destruct (uuidRegex_test s); reflexivity.
  - intros data Hns.
    destruct data; try (now destruct (Hns s));
      (split; [reflexivity|split; [reflexivity|]]);
      unfold validateInput, safeParse; cbn; eauto.
Qed.

(** *** Optional fields *)

Lemma optional_fields_merge p props shape o :
  all_optional shape = true ->
  (forall k, In k (keys shape) -> props !! k = None) ->
  mergeObjectSync (List.map (field_result p props) shape) false o = VALID (VObject o).
Proof.
  revert o. induction shape as [|[k fs] shape IH]; intros o Hopt Habs; [reflexivity|].
  cbn in Hopt. apply andb_true_iff in Hopt as [Hfs Hopt].
  destruct fs; try discriminate.
  cbn [List.map]. unfold field_result at 1. cbn [fst snd].
  assert (Hk : props !! k = None) by (apply Habs; now left).
  unfold get, has. rewrite Hk. cbn [default].
  unfold result_of, outcome_of. cbn [_parse ret fst default mergeObjectSync].
  rewrite bool_decide_eq_false_2 by (intros [? Hs]; discriminate Hs).
  unfold set_field, id. cbn [orb]. rewrite andb_false_r.
  apply IH; [exact Hopt|]. intros k' Hk'. apply Habs. now right.
Qed.

(** X14: when every field of a shape is optional, an input object that
    carries none of them is accepted and the data is the empty object,
    whatever other fields the input has; the profile update schema is
    such a shape. *)
Theorem X14_all_optional_empty :
  (forall shape props,
     all_optional shape = true ->
     (forall k, In k (keys shape) -> props !! k = None) ->
     validateInput (ZObject shape) (VObject props) = Success (VObject ∅)) /\
  all_optional (shape_of profileUpdateSchema) = true.
Proof.
  split; [|reflexivity].
  intros shape props Hopt Habs.
  apply validateInput_of_result. rewrite result_of_object.
  - now apply optional_fields_merge.
  - apply fields_no_raise. intros k fs Hin.
    unfold all_optional in Hopt. rewrite forallb_forall in Hopt.
    specialize (Hopt _ Hin). cbn in Hopt. destruct fs; try discriminate.
    unfold get. rewrite (Habs k); [reflexivity|].
    apply (in_map fst _ (k, ZOptional fs)). exact Hin.
Qed.

(** X15: [.optional()] admits an absent field, not a null one: when
    validation does not raise, an optional string field that is present
    with the value [null] makes it fail, with the entry
    [Expected string, received null]. *)
Theorem X15_optional_rejects_null :
  forall shape props k checks,
    In (k, ZOptional (ZString checks)) shape ->
    props !! k = Some VNull ->
    validateInput (ZObject shape) (VObject props) <> Throws ->
    exists e,
      validateInput (ZObject shape) (VObject props) = Failure e /\
      occurs_in (k ++ js ": Expected string, received null") e.
Proof.
  intros shape props k checks Hin Hk Hnt.
  pose proof (returns_no_raise _ _ Hnt) as Hno.
  assert (Hi : In (mkIssue [k] (js "Expected string, received null"))
                 (issues_of (ZObject shape) [] (VObject props))).
  { apply (field_issues_in_object shape [] props k _ _ Hno Hin).
    unfold get. rewrite Hk. now left. }
  eexists. split.
  - apply validateInput_failure; [exact Hno|].
    intros Hnil. rewrite Hnil in Hi. destruct Hi.
  - apply occurs_in_join. apply (in_map format_issue) in Hi. exact Hi.
Qed.

(** *** The object built from valid fields *)

Lemma mergeObjectSync_all_valid pairs o :
  forallb (fun '(_, r, _) => is_valid r) pairs = true ->
  mergeObjectSync pairs false o = VALID (VObject (final_object pairs o)).
Proof.
  revert o. induction pairs as [|[[k r] a] pairs IH]; intros o Hv; [reflexivity|].
  cbn in Hv. apply andb_true_iff in Hv as [Hr Hv].
  destruct r; try discriminate. cbn. now apply IH.
Qed.

Lemma final_object_lookup_valid (k : jsstring) (v : value) (a : bool)
    (pairs : list (jsstring * ParseReturn * bool)) (o : gmap jsstring value) :
  NoDup (List.map (fun kra => fst (fst kra)) pairs) ->
  In (k, VALID v, a) pairs ->
  k <> js "__proto__" ->
  final_object pairs o !! k = if defined v || a then Some v else o !! k.
Proof.
  revert o. induction pairs as [|[[k' r] a'] pairs IH]; intros o Hnd Hin Hk;
    [destruct Hin|].
  cbn in Hnd. apply NoDup_cons in Hnd as [Hk' Hnd].
  destruct Hin as [Heq|Hin].
  - injection Heq as -> -> ->.
    unfold final_object. cbn. fold (final_object pairs (set_field k v a o)).
    rewrite final_object_lookup_other by (now rewrite <- list_elem_of_In).
    unfold set_field. rewrite bool_decide_eq_false_2 by assumption.
    cbn [negb andb].
    replace (match v with VUndefined => false | _ => true end) with (defined v)
      by now destruct v.
    destruct (defined v || a); [apply lookup_insert_eq|reflexivity].
  - unfold final_object. cbn.
    fold (final_object pairs (match r with
                              | INVALID => o
                              | DIRTY v0 | VALID v0 => set_field k' v0 a' o
                              end)).
    rewrite (IH _ Hnd Hin Hk).
    destruct (defined v || a); [reflexivity|].
    assert (Hne : k' <> k).
    { intros ->. apply Hk'. apply list_elem_of_In.
      apply (in_map (fun kra => fst (fst kra))) in Hin. exact Hin. }
    destruct r; [reflexivity| |]; now apply set_field_lookup_ne.
Qed.

Lemma final_object_field p props shape k fs v :
  NoDup (keys shape) ->
  ~ In (js "__proto__") (keys shape) ->
  In (k, fs) shape ->
  result_of fs (p ++ [k]) (get k props) = VALID v ->
  final_object (List.map (field_result p props) shape) ∅ !! k
  = if defined v || has k props then Some v else None.
Proof.
  intros Hnd Hproto Hin Hr.
  rewrite (final_object_lookup_valid k v (has k props)).
  - now rewrite lookup_empty.
  - rewrite map_map. exact Hnd.
  - apply (in_map (field_result p props)) in Hin.
    unfold field_result in Hin at 1. cbn [fst snd] in Hin. now rewrite Hr in Hin.
  - intros ->. apply Hproto. apply (in_map fst) in Hin. exact Hin.
Qed.

Lemma fields_valid p props shape k fs :
  forallb (fun '(_, r, _) => is_valid r) (List.map (field_result p props) shape) = true ->
  In (k, fs) shape ->
  exists v, result_of fs (p ++ [k]) (get k props) = VALID v.
Proof.
  intros Hall Hin. rewrite forallb_forall in Hall.
  specialize (Hall _ (in_map (field_result p props) _ _ Hin)). cbn in Hall.
  destruct (result_of fs (p ++ [k]) (get k props)); try discriminate. eauto.
Qed.

Lemma object_valid_inv shape p props d :
  result_of (ZObject shape) p (VObject props) = VALID d ->
  d = VObject (final_object (List.map (field_result p props) shape) ∅) /\
  forallb (fun '(_, r, _) => is_valid r) (List.map (field_result p props) shape) = true.
Proof.
  intros Hr. pose proof (result_no_raise _ _ _ _ Hr) as Hno.
  rewrite result_of_object in Hr by exact Hno. split.
  - now apply mergeObjectSync_value in Hr.
  - assert (Hv : is_valid (mergeObjectSync (List.map (field_result p props) shape) false ∅)
                 = true) by now rewrite Hr.
    now rewrite mergeObjectSync_valid in Hv.
Qed.

(** *** Pagination *)

Lemma number_valid coerce checks p data v :
  result_of (ZNumber coerce checks) p data = VALID v ->
  exists x, v = VNumber x /\ PrimFloat.is_nan x = false /\
            existsb (fun c => number_check_fails c x) checks = false /\
            (if coerce then ToNumber data else Some x) = Some x.
Proof.
  unfold result_of, outcome_of. cbn [_parse]. unfold bind, coerce_input.
  assert (Hbody : forall data',
             default INVALID
               (fst (match getParsedType data', data' with
                     | Tnumber, VNumber x =>
                         bind (run_checks number_check_fails number_check_message
                                 checks p x false)
                           (fun dirty => ret (if dirty then DIRTY data' else VALID data'))
                     | received, _ =>
                         bind (addIssueToContext p
                                 (invalid_type_message (js "number") received))
                           (fun _ => ret INVALID)
                     end [])) = VALID v ->
             exists x, data' = VNumber x /\ v = VNumber x /\ PrimFloat.is_nan x = false /\
                       existsb (fun c => number_check_fails c x) checks = false).
  { intros data'. destruct data'; cbn; try discriminate.
    destruct (PrimFloat.is_nan x) eqn:Hnan; cbn; [discriminate|].
    unfold bind, ret. rewrite run_checks_spec. cbn.
    destruct (existsb _ checks) eqn:Hex; cbn; [discriminate|].
    intros [= <-]. eauto 6. }
  destruct coerce.
  - destruct (ToNumber data) as [y|]; unfold ret, throw; cbn [fst snd];
      [|discriminate].
    intros Hv. apply Hbody in Hv as (x & [= ->] & -> & Hnan & Hex). eauto 6.
  - unfold ret. cbn [fst snd].
    intros Hv. apply Hbody in Hv as (x & -> & -> & Hnan & Hex). eauto 6.
Qed.

Lemma default_result innerType defaultValue p data :
  result_of (ZDefault innerType defaultValue) p data
  = result_of innerType p (if defined data then data else defaultValue).
Proof. now destruct data. Qed.

(** X16: the data of a successful pagination validation is always an
    object that holds exactly [page] and [limit], both numbers that pass
    the checks of the schema: [page] an integer greater than 0, [limit] an
    integer from 1 to 100. *)
Theorem X16_pagination_data :
  forall data d,
    validateInput paginationSchema data = Success d ->
    exists page limit,
      d = obj [("page", VNumber page); ("limit", VNumber limit)] /\
      isInteger page = true /\ PrimFloat.leb page 0 = false /\
      isInteger limit = true /\ PrimFloat.ltb limit 1 = false /\
      PrimFloat.ltb 100 limit = false.
Proof.
  intros data d Hok.
  destruct (object_success _ _ _ Hok) as (props & -> & -> & Hvalid).
  apply result_of_success in Hok.
  apply object_valid_inv in Hok as [_ Hall].
  destruct (fields_valid [] props _ (js "page") _ Hall ltac:(left; reflexivity))
    as (vp & Hp).
  destruct (fields_valid [] props _ (js "limit") _ Hall ltac:(right; left; reflexivity))
    as (vl & Hl).
  pose proof Hp as Hp'. pose proof Hl as Hl'.
  rewrite default_result in Hp'. rewrite default_result in Hl'.
  apply number_valid in Hp' as (x & -> & _ & Hcx & _).
  apply number_valid in Hl' as (y & -> & _ & Hcy & _).
  exists x, y.
  cbn in Hcx, Hcy.
  apply orb_false_iff in Hcx as [Hx1 Hx2]. apply orb_false_iff in Hx2 as [Hx2 _].
  apply orb_false_iff in Hcy as [Hy1 Hy2]. apply orb_false_iff in Hy2 as [Hy2 Hy3].
  apply orb_false_iff in Hy3 as [Hy3 _].
  apply negb_false_iff in Hx1, Hy1.
  repeat split; try assumption.
  cbn [List.map]. unfold field_result. cbn [fst snd].
  cbn [app] in Hp, Hl |- *. rewrite Hp, Hl.
  unfold obj, final_object. f_equal.
Qed.

(** *** The report filter and the pagination it merges in *)

Lemma join_app_suffix sep (l1 l2 : list jsstring) :
  l2 <> [] -> exists pre, join sep (l1 ++ l2) = pre ++ join sep l2.
Proof.
  intros Hne. induction l1 as [|x l1 [pre IH]].
  - now exists [].
  - destruct (l1 ++ l2) as [|y l] eqn:Heq.
    + destruct l1; [cbn in Heq; contradiction|discriminate Heq].
    + exists (x ++ sep ++ pre).
      cbn [app]. rewrite Heq.
      change (join sep (x :: y :: l)) with (x ++ sep ++ join sep (y :: l)).
      rewrite IH. now rewrite <- !app_assoc.
Qed.

Lemma reportFilter_shape :
  exists filters,
    reportFilterSchema = ZObject (filters ++ shape_of paginationSchema) /\
    keys filters = [js "status"; js "search"; js "startDate"; js "endDate"] /\
    coercion_free (ZObject filters) = true.
Proof. eexists. split; [reflexivity|split; reflexivity]. Qed.

Lemma raises_app (a b : list (jsstring * schema)) (props : gmap jsstring value) :
  raises (ZObject (a ++ b)) (VObject props)
  = raises (ZObject a) (VObject props) || raises (ZObject b) (VObject props).
Proof. cbn [raises]. apply existsb_app. Qed.

Lemma shape_app_issues a b p props :
  raises (ZObject (a ++ b)) (VObject props) = false ->
  issues_of (ZObject (a ++ b)) p (VObject props)
  = issues_of (ZObject a) p (VObject props) ++ issues_of (ZObject b) p (VObject props).
Proof.
  intros Hno. pose proof Hno as Hno'. rewrite raises_app in Hno'.
  apply orb_false_iff in Hno' as [Ha Hb].
  rewrite !issues_of_object by assumption. apply flat_map_app.
Qed.

Lemma shape_app_success a b props out :
  NoDup (keys (a ++ b)) ->
  ~ In (js "__proto__") (keys (a ++ b)) ->
  validateInput (ZObject (a ++ b)) (VObject props) = Success (VObject out) ->
  exists out',
    validateInput (ZObject b) (VObject props) = Success (VObject out') /\
    forall k, In k (keys b) -> out' !! k = out !! k.
Proof.
  intros Hnd Hproto Hok.
  pose proof (success_no_raise _ _ _ Hok) as Hno.
  apply result_of_success in Hok.
  apply object_valid_inv in Hok as [Hout Hall].
  injection Hout as ->.
  assert (Hallb : forallb (fun '(_, r, _) => is_valid r)
                    (List.map (field_result [] props) b) = true).
  { rewrite List.map_app, forallb_app in Hall.
    now apply andb_true_iff in Hall as [_ ?]. }
  exists (final_object (List.map (field_result [] props) b) ∅). split.
  - apply validateInput_of_result. rewrite result_of_object.
    + now apply mergeObjectSync_all_valid.
    + rewrite raises_app in Hno. now apply orb_false_iff in Hno as [_ ?].
  - intros k Hk. apply in_map_iff in Hk as ([k' fs] & <- & Hin). cbn [fst].
    destruct (fields_valid [] props b k' fs Hallb Hin) as (v & Hv).
    unfold keys in Hnd, Hproto. rewrite List.map_app in Hnd, Hproto.
    rewrite (final_object_field [] props b k' fs v); try assumption.
    + rewrite (final_object_field [] props (a ++ b) k' fs v); try assumption.
      * reflexivity.
      * unfold keys. now rewrite List.map_app.
      * unfold keys. now rewrite List.map_app.
      * apply in_or_app. now right.
    + now apply NoDup_app in Hnd as (_ & _ & ?).
    + intros Hp. apply Hproto. apply in_or_app. now right.
Qed.

(** X17: the report filter schema validates its pagination fields as the
    pagination schema does.  Whenever the pagination schema rejects an
    input, the report filter schema rejects it too and its message ends
    with the pagination message; whenever the report filter schema accepts
    an input, the pagination schema accepts it with the same [page] and
    [limit]. *)
Theorem X17_report_filter_includes_pagination :
  (forall props e,
     validateInput paginationSchema (VObject props) = Failure e ->
     exists pre, validateInput reportFilterSchema (VObject props) = Failure (pre ++ e)) /\
  (forall props out,
     validateInput reportFilterSchema (VObject props) = Success (VObject out) ->
     exists out',
       validateInput paginationSchema (VObject props) = Success (VObject out') /\
       out' !! js "page" = out !! js "page" /\
       out' !! js "limit" = out !! js "limit").
Proof.
  destruct reportFilter_shape as (filters & Hshape & Hkeys & Hfree).
  split.
  - intros props e He.
    pose proof (failure_no_raise _ _ _ He) as Hnop.
    assert (Hno : raises (ZObject (filters ++ shape_of paginationSchema)) (VObject props)
                  = false).
    { rewrite raises_app. apply orb_false_iff. split; [|exact Hnop].
      now apply coercion_free_no_raise. }
    rewrite validateInput_spec, Hnop in He.
    destruct (issues_of paginationSchema [] (VObject props)) as [|i issues] eqn:Hi.
    { destruct (result_of _ _ _); discriminate He. }
    assert (Heq : e = join (js ", ") (List.map format_issue (i :: issues)))
      by congruence.
    clear He. subst e.
    destruct (join_app_suffix (js ", ")
                (List.map format_issue (issues_of (ZObject filters) [] (VObject props)))
                (List.map format_issue (i :: issues)) ltac:(discriminate)) as (pre & Hpre).
    exists pre. rewrite <- Hpre, <- List.map_app.
    rewrite Hshape, validateInput_failure; rewrite ?shape_app_issues by exact Hno;
      try exact Hno.
    + change (ZObject (shape_of paginationSchema)) with paginationSchema.
      now rewrite Hi.
    + change (ZObject (shape_of paginationSchema)) with paginationSchema.
      rewrite Hi.
      now destruct (issues_of (ZObject filters) [] (VObject props)).
  - intros props out Hok. rewrite Hshape in Hok.
    apply shape_app_success in Hok as (out' & Hok' & Hsame).
    + change (ZObject (shape_of paginationSchema)) with paginationSchema in Hok'.
      exists out'. split; [exact Hok'|].
      split; apply Hsame; cbn; tauto.
    + unfold keys. rewrite List.map_app. fold (keys filters). rewrite Hkeys.
      apply (bool_decide_unpack _). vm_compute. exact I.
    + unfold keys. rewrite List.map_app. fold (keys filters). rewrite Hkeys.
      rewrite <- list_elem_of_In. apply (bool_decide_unpack _). vm_compute. exact I.
Qed.

(** *** Validating validated data again *)

Lemma leaf_valid_same s p data v :
  match s with
  | ZString _ | ZBoolean | ZLiteral _ _ | ZEnum _ _ => True
  | _ => False
  end ->
  result_of s p data = VALID v -> v = data.
Proof.
  unfold result_of, outcome_of.
  destruct s; try contradiction; intros _; destruct data; cbn; try discriminate.
  - unfold bind, ret. rewrite run_checks_spec. cbn.
    destruct (existsb _ _); cbn; [discriminate|]. now intros [= <-].
  - now intros [= <-].
  - destruct (bool_decide _); cbn; [|discriminate]. now intros [= <-].
  - destruct (existsb _ _); cbn; [|discriminate]. now intros [= <-].
Qed.

Lemma optional_result innerType p data :
  result_of (ZOptional innerType) p data
  = if defined data then result_of innerType p data else VALID VUndefined.
Proof. now destruct data. Qed.

Lemma defined_result s : forall p data v,
  result_of s p data = VALID v -> defined data = true -> defined v = true.
Proof.
  induction s as [checks|coerce checks| |v' m|vs m|s IH|s d IH|shape IH] using schema_ind';
    intros p data v.
  - intros Hr Hd. apply leaf_valid_same in Hr; [now subst|exact I].
  - intros Hr _. apply number_valid in Hr as (x & -> & _). reflexivity.
  - intros Hr Hd. apply leaf_valid_same in Hr; [now subst|exact I].
  - intros Hr Hd. apply leaf_valid_same in Hr; [now subst|exact I].
  - intros Hr Hd. apply leaf_valid_same in Hr; [now subst|exact I].
  - rewrite optional_result. intros Hr Hd. rewrite Hd in Hr. now apply (IH p data).
  - rewrite default_result. intros Hr Hd. rewrite Hd in Hr. now apply (IH p data).
  - destruct data; try (unfold result_of, outcome_of; cbn; discriminate).
    intros Hr _. apply object_valid_inv in Hr as [-> _]. reflexivity.
Qed.

Lemma well_formed_object shape :
  well_formed (ZObject shape) = true ->
  NoDup (keys shape) /\ ~ In (js "__proto__") (keys shape) /\
  (forall k fs, In (k, fs) shape -> well_formed fs = true).
Proof.
  cbn [well_formed]. intros Hwf.
  apply andb_true_iff in Hwf as [Hwf Hfs].
  apply andb_true_iff in Hwf as [Hnd Hproto].
  split; [now apply bool_decide_eq_true in Hnd|]. split.
  - intros Hin. apply negb_true_iff in Hproto.
    assert (existsb (fun k => bool_decide (k = js "__proto__")) (keys shape) = true).
    { apply existsb_exists. eexists. split; [exact Hin|].
      now apply bool_decide_eq_true_2. }
    congruence.
  - intros k fs Hin. rewrite forallb_forall in Hfs. apply (Hfs _ Hin).
Qed.

Lemma final_object_adjust pairs o :
  final_object
    (List.map (fun '(k, r, a) =>
                 (k, r, match r with VALID v => defined v || a | _ => a end)) pairs) o
  = final_object pairs o.
Proof.
  revert o. induction pairs as [|[[k r] a] pairs IH]; intros o; [reflexivity|].
  unfold final_object in *. cbn [List.map fold_left].
  rewrite IH. f_equal.
  destruct r as [| |v]; try reflexivity.
  unfold set_field. destruct v, a; reflexivity.
Qed.

Lemma result_idempotent s :
  well_formed s = true ->
  forall p data v, result_of s p data = VALID v -> result_of s p v = VALID v.
Proof.
  induction s as [checks|coerce checks| |v' m|vs m|s IH|s d IH|shape IH] using schema_ind';
    intros Hwf p data v Hr.
  - pose proof Hr as Hs. apply leaf_valid_same in Hs; [subst v; exact Hr|exact I].
  - pose proof Hr as Hr'.
    apply number_valid in Hr' as (x & -> & Hnan & Hex & _).
    unfold result_of, outcome_of. cbn [_parse]. unfold bind, coerce_input.
    replace (if coerce
             then match ToNumber (VNumber x) with
                  | Some x0 => ret (VNumber x0)
                  | None => throw
                  end
             else ret (VNumber x)) with (@ret value (VNumber x))
      by now destruct coerce.
    unfold ret at 1. cbn. rewrite Hnan. unfold bind, ret. rewrite run_checks_spec. cbn.
    now rewrite Hex.
  - pose proof Hr as Hs. apply leaf_valid_same in Hs; [subst v; exact Hr|exact I].
  - pose proof Hr as Hs. apply leaf_valid_same in Hs; [subst v; exact Hr|exact I].
  - pose proof Hr as Hs. apply leaf_valid_same in Hs; [subst v; exact Hr|exact I].
  - rewrite optional_result in Hr. rewrite optional_result.
    destruct (defined data) eqn:Hd.
    + pose proof (defined_result _ _ _ _ Hr Hd) as Hv. rewrite Hv.
      apply (IH Hwf _ _ _ Hr).
    + injection Hr as <-. reflexivity.
  - rewrite default_result in Hr. rewrite default_result.
    destruct (defined v) eqn:Hv.
    + apply (IH Hwf _ _ _ Hr).
    + destruct (defined data) eqn:Hd; [|exact Hr].
      pose proof (defined_result _ _ _ _ Hr Hd). congruence.
  - destruct data; try (unfold result_of, outcome_of in Hr; cbn in Hr; discriminate).
    apply well_formed_object in Hwf as (Hnd & Hproto & Hfields).
    apply object_valid_inv in Hr as [-> Hall].
    set (out := final_object (List.map (field_result p props) shape) ∅).
    assert (Hfield : forall k fs,
               In (k, fs) shape ->
               exists v, result_of fs (p ++ [k]) (get k props) = VALID v /\
                         get k out = v /\ has k out = (defined v || has k props) /\
                         result_of fs (p ++ [k]) v = VALID v).
    { intros k fs Hin.
      destruct (fields_valid p props shape k fs Hall Hin) as (v & Hv).
      assert (Hlook : out !! k = if defined v || has k props then Some v else None)
        by now apply final_object_field with (fs := fs).
      exists v. split; [exact Hv|]. split; [|split].
      - unfold get. rewrite Hlook.
        destruct (defined v || has k props) eqn:Hdef; [reflexivity|].
        apply orb_false_iff in Hdef as [Hdef _]. now destruct v.
      - unfold has at 1. rewrite Hlook.
        destruct (defined v || has k props).
        + apply bool_decide_eq_true_2. eauto.
        + apply bool_decide_eq_false_2. intros [? Hs]. discriminate Hs.
      - rewrite List.Forall_forall in IH.
        apply (IH _ Hin (Hfields _ _ Hin) _ _ _ Hv). }
    rewrite result_of_object.
    2:{ apply fields_no_raise. intros k fs Hin.
        destruct (Hfield k fs Hin) as (v & _ & Hget & _ & Hid).
        rewrite Hget. now apply result_no_raise in Hid. }
    assert (Hpairs : List.map (field_result p out) shape
                     = List.map (fun '(k, r, a) =>
                                   (k, r, match r with
                                          | VALID v => defined v || a
                                          | _ => a
                                          end))
                         (List.map (field_result p props) shape)).
    { rewrite map_map. apply map_ext_in. intros [k fs] Hin.
      destruct (Hfield k fs Hin) as (v & Hv & Hget & Hhas & Hid).
      unfold field_result. cbn [fst snd].
      now rewrite Hget, Hhas, Hv, Hid. }
    rewrite Hpairs, mergeObjectSync_all_valid.
    + now rewrite final_object_adjust.
    + rewrite forallb_forall in Hall |- *.
      intros [[k r] a] Hin. apply in_map_iff in Hin as ([[k' r'] a'] & Heq & Hin).
      injection Heq as <- <- <-. apply (Hall _ Hin).
Qed.

(** X18: validation is stable on its own output: for a schema whose
    object shapes are object literals, data returned by a successful
    validation validates again, against the same schema, to itself.  All
    the exported schemas are of that kind. *)
Theorem X18_revalidation_stable :
  (forall s data d,
     well_formed s = true ->
     validateInput s data = Success d ->
     validateInput s d = Success d) /\
  (forall name s, In (name, s) registry -> well_formed s = true) /\
  well_formed uuidSchema = true /\ well_formed emailSchema = true.
Proof.
  split; [|split; [|split; reflexivity]].
  - intros s data d Hwf Hok.
    apply validateInput_of_result.
    apply (result_idempotent s Hwf [] data).
    now apply result_of_success.
  - intros name s Hin. cbn in Hin.
    repeat (destruct Hin as [Heq|Hin]; [injection Heq as <- <-; vm_compute; reflexivity|]).
    destruct Hin.
Qed.

End Extra.

Import SampleHost.

Lemma X10_witness :
  validateInput noteSchema VNull = Failure (js ": Expected object, received null").
Proof. apply (X10_non_object_input (H := sample_host)). discriminate. Defined.

Lemma X11_witness :
  exists k rest,
    path (mkIssue [js "limit"] (js "Number must be less than or equal to 100"))
    = k :: rest /\ In k (keys (shape_of paginationSchema)).
Proof.
  apply (X11_issues_name_declared_fields (H := sample_host) _
           (list_to_map [(js "limit", VNumber 101); (js "utm", VNull)])).
  vm_compute. now left.
Defined.

Lemma X14_witness :
  validateInput profileUpdateSchema (obj [("utm", VString (js "x"))]) = Success (VObject ∅).
Proof.
  destruct (X14_all_optional_empty (H := sample_host)) as [Hgen Hprofile].
  apply (Hgen (shape_of profileUpdateSchema)); [exact Hprofile|].
  intros k Hk. cbn in Hk.
  repeat (destruct Hk as [<-|Hk]; [vm_compute; reflexivity|]). destruct Hk.
Defined.

Lemma X15_witness :
  exists e,
    validateInput profileUpdateSchema (obj [("phone", VNull)]) = Failure e /\
    occurs_in (js "phone" ++ js ": Expected string, received null") e.
Proof.
  eapply (X15_optional_rejects_null (H := sample_host) (shape_of profileUpdateSchema)
            (list_to_map [(js "phone", VNull)]) (js "phone")).
  - right. right. left. reflexivity.
  - vm_compute. reflexivity.
  - vm_compute. discriminate.
Defined.

Lemma X16_witness :
  exists page limit,
    obj [("page", VNumber 3); ("limit", VNumber 20)]
    = obj [("page", VNumber page); ("limit", VNumber limit)] /\
    isInteger page = true /\ PrimFloat.leb page 0 = false /\
    isInteger limit = true /\ PrimFloat.ltb limit 1 = false /\
    PrimFloat.ltb 100 limit = false.
Proof.
  apply (X16_pagination_data (H := sample_host) (obj [("page", VString (js "3"))])).
  vm_compute. reflexivity.
Defined.

Lemma X17_witness :
  exists pre,
    validateInput reportFilterSchema
      (obj [("status", VString (js "open")); ("limit", VNumber 0)])
    = Failure (pre ++ js "limit: Number must be greater than or equal to 1").
Proof.
  destruct (X17_report_filter_includes_pagination (H := sample_host)) as [Hfail _].
  apply (Hfail (list_to_map [(js "status", VString (js "open")); (js "limit", VNumber 0)])).
  vm_compute. reflexivity.
Defined.

Lemma X18_witness :
  validateInput paginationSchema (obj [("page", VNumber 3); ("limit", VNumber 20)])
  = Success (obj [("page", VNumber 3); ("limit", VNumber 20)]).
Proof.
  destruct (X18_revalidation_stable (H := sample_host)) as [Hstable _].
  apply (Hstable paginationSchema (obj [("page", VString (js "3"))])).
  - reflexivity.
  - vm_compute. reflexivity.
Defined.

End EngineExtra.
